(** * Emotion sampling, session log and CSV export of the emotion-detection page

    A shallow embedding of the stateful core of [EmotionDetection]
    (the page with speech capture): the per-second detection callback
    of [handleVideoPlay], the [onresult] callback installed by
    [initializeSpeechRecognition], and [downloadLogs].

    JavaScript values are modelled as follows.
    - A [number] is an IEEE-754 binary64 value, [spec_float] at precision 53
      and maximal exponent 1024; [>] and [-] are the IEEE operations.
    - A string is a [string] holding the UTF-8 bytes of the text.
    - An array is a [list]; an object literal is a record.
    - The React state cell [emotionsLog] and the ref [emotionBuffer] are the
      fields of one [State] record, threaded through every callback. *)

From Stdlib Require Import ZArith Lia Bool List String Ascii.
From Stdlib Require Import Floats.SpecFloat.
From Stdlib Require Import Sorting.Sorted Sorting.Permutation.
Import ListNotations.

Local Open Scope string_scope.
Local Open Scope list_scope.

(** ** Numbers *)

Module Number.

Local Open Scope Z_scope.

Definition prec : Z := 53.
Definition emax : Z := 1024.

Definition number : Type := spec_float.

Definition zero : number := S754_zero false.
Definition one : number := S754_finite false 4503599627370496 (-52).

(** [x - y] *)
Definition sub (x y : number) : number := SFsub prec emax x y.

(** [x < y], [x > y], [x <= y]: false as soon as one side is NaN. *)
Definition ltb (x y : number) : bool := SFltb x y.
Definition gtb (x y : number) : bool := SFltb y x.
Definition leb (x y : number) : bool := SFleb x y.

Definition isNaN (x : number) : bool :=
  match x with S754_nan => true | _ => false end.

(** A confidence score as the data model has it: a binary64 value
    that lies in [0,1]. *)
Definition is_confidence (x : number) : bool :=
  valid_binary prec emax x && leb zero x && leb x one.

(** The literals used in the examples, as the binary64 values the
    decimal literals denote. *)
Definition d0_1 : number := S754_finite false 7205759403792794 (-56).
Definition d0_2 : number := S754_finite false 7205759403792794 (-55).
Definition d0_3 : number := S754_finite false 5404319552844595 (-54).
Definition d0_9 : number := S754_finite false 8106479329266893 (-53).
Definition d0_01 : number := S754_finite false 5764607523034235 (-59).
Definition d0_02 : number := S754_finite false 5764607523034235 (-58).
Definition d0_03 : number := S754_finite false 8646911284551352 (-58).
Definition d0_04 : number := S754_finite false 5764607523034235 (-57).
Definition d0_05 : number := S754_finite false 7205759403792794 (-57).
Definition d0_85 : number := S754_finite false 7656119366529843 (-53).

(** The least exponent of a binary64 value. *)
Definition emin : Z := SpecFloat.emin prec emax.

(** *** The order on numbers that are not NaN *)

(** A number that is not NaN, placed in a lexicographically ordered
    triple: class (infinities outermost), then exponent, then mantissa,
    the last two negated for negative numbers. *)
Definition key (x : number) : Z * Z * Z :=
  match x with
  | S754_nan => (0, 0, 0)
  | S754_zero _ => (0, 0, 0)
  | S754_infinity s => (if s then -2 else 2, 0, 0)
  | S754_finite s m e =>
      if s then (-1, - e, - Zpos m) else (1, e, Zpos m)
  end.

Definition lex_lt (a b : Z * Z * Z) : Prop :=
  let '(a1, a2, a3) := a in
  let '(b1, b2, b3) := b in
  a1 < b1 \/ (a1 = b1 /\ (a2 < b2 \/ (a2 = b2 /\ a3 < b3))).

Definition num_lt (x y : number) : Prop := lex_lt (key x) (key y).
Definition num_le (x y : number) : Prop := ~ lex_lt (key y) (key x).

End Number.

Import Number.

(** ** Data model *)

(** One element of [emotionBuffer]: [{ emotion, confidence }]. *)
Module Sample.
Record t : Type := mk { emotion : string; confidence : number }.
End Sample.

(** One element of [emotionsLog]: [{ time, emotion, speech }]. *)
Module LogEntry.
Record t : Type := mk { time : string; emotion : string; speech : string }.

(** [{ ...log, speech: transcript }] *)
Definition with_speech (log : t) (transcript : string) : t :=
  mk (time log) (emotion log) transcript.
End LogEntry.

(** The [expressions] object of one detected face, given by its own
    enumerable properties in property order, which is what
    [Object.entries] lists: pairs [[label, confidence]]. *)
Definition FaceExpressions : Type := list (string * number).

Definition Object_entries (emotions : FaceExpressions) : list (string * number) :=
  emotions.

(** The mutable cells of the component that the callbacks touch. *)
Record State : Type := mkState {
  emotionBuffer : list Sample.t;
  emotionsLog : list LogEntry.t;
  currentEmotion : string
}.

(** State on mount: an empty buffer, an empty log, the empty string. *)
Definition initial : State := mkState [] [] EmptyString.

(** How a callback body ends: it runs to its end, or an exception leaves it
    (here only a [TypeError]); either way the cells hold some state. *)
Inductive completion : Type :=
  | Normal (st : State)
  | TypeError (st : State).

Definition state_of (c : completion) : State :=
  match c with Normal st | TypeError st => st end.

(** ** Array helpers *)

Module Array.
Section Sort.
Context {A : Type}.
Variable comparefn : A -> A -> number.

(** The value the sort acts on: a NaN result of [comparefn] counts
    as [+0]. *)
Definition SortCompare (x y : A) : number :=
  let v := comparefn x y in
  if isNaN v then zero else v.

(** [Array.prototype.sort] is a stable sort: [x] moves behind [y] only
    when [comparefn x y > 0].  Stable insertion sort, each element
    inserted in front of the already sorted elements that followed it.
    Where [comparefn] is a consistent comparator (here: no confidence is
    NaN) the result of a stable sort is determined and this is it; where it
    is not, the language leaves the order to the engine, and the order fixed
    here need not be the engine's. *)
Fixpoint insert (x : A) (sorted : list A) : list A :=
  match sorted with
  | [] => [x]
  | y :: rest =>
      if gtb (SortCompare x y) zero then y :: insert x rest
      else x :: sorted
  end.

Definition sort (l : list A) : list A := fold_right insert [] l.
End Sort.

(** [reduce] without an initial value: the first element seeds the
    accumulator; on an empty array it throws. *)
Definition reduce {A : Type} (callbackfn : A -> A -> A) (l : list A) : option A :=
  match l with
  | [] => None
  | x :: rest => Some (fold_left callbackfn rest x)
  end.

(** [arr[i]] for an integer index: [undefined] out of range, also for
    a negative index. *)
Definition get {A : Type} (l : list A) (i : Z) : option A :=
  if (i <? 0)%Z then None else nth_error l (Z.to_nat i).

(** [arr.map((x, index) => f x index)] *)
Fixpoint mapi_from {A B : Type} (f : A -> Z -> B) (start : Z) (l : list A) : list B :=
  match l with
  | [] => []
  | x :: rest => f x start :: mapi_from f (start + 1)%Z rest
  end.

Definition mapi {A B : Type} (f : A -> Z -> B) (l : list A) : list B :=
  mapi_from f 0%Z l.

Definition length {A : Type} (l : list A) : Z := Z.of_nat (List.length l).
End Array.

(** [s.replace(/c/g, by)] for a one-character pattern. *)
Fixpoint replace_all (c : ascii) (by_ : string) (s : string) : string :=
  match s with
  | EmptyString => EmptyString
  | String x rest =>
      if Ascii.eqb x c then by_ ++ replace_all c by_ rest
      else String x (replace_all c by_ rest)
  end.

(** ** The detection callback of [handleVideoPlay] *)

(** [(a, b) => b[1] - a[1]] *)
Definition by_confidence_desc (a b : string * number) : number :=
  sub (snd b) (snd a).

(** [(prev, current) => prev.confidence > current.confidence ? prev : current] *)
Definition stronger (prev current : Sample.t) : Sample.t :=
  if gtb (Sample.confidence prev) (Sample.confidence current) then prev else current.

(** [emotionBuffer.current.push(sample)] *)
Definition push (st : State) (sample : Sample.t) : State :=
  mkState (emotionBuffer st ++ [sample]) (emotionsLog st) (currentEmotion st).

(** The block guarded by [emotionBuffer.current.length >= 5]; [now] is
    what [toLocaleTimeString] returns when the entry is built. *)
Definition commit (st : State) (now : string) : completion :=
  if (5 <=? Array.length (emotionBuffer st))%Z then
    match Array.reduce stronger (emotionBuffer st) with
    | None => TypeError st
    | Some bestEmotion =>
        let logEntry :=
          LogEntry.mk (replace_all ":" ":" now) (Sample.emotion bestEmotion) EmptyString in
        Normal (mkState [] (emotionsLog st ++ [logEntry]) (Sample.emotion bestEmotion))
    end
  else Normal st.

(** The callback that [handleVideoPlay] gives to [setInterval], from the
    point where the awaited detection has resolved to [detections]; the
    drawing on the canvas is left out. *)
Definition handleVideoPlay_tick (st : State) (detections : list FaceExpressions) (now : string)
  : completion :=
  match detections with
  | [] => Normal st
  | emotions :: _ =>
      let sortedEmotions := Array.sort by_confidence_desc (Object_entries emotions) in
      match sortedEmotions with
      | [] => TypeError st
      | strongestEmotion :: _ =>
          commit (push st (Sample.mk (fst strongestEmotion) (snd strongestEmotion))) now
      end
  end.

(** ** The [onresult] callback of the speech recognizer *)

(** The updater passed to [setEmotionsLog]. *)
Definition amend (transcript : string) (prevLogs : list LogEntry.t) : list LogEntry.t :=
  match Array.get prevLogs (Array.length prevLogs - 1)%Z with
  | Some lastLog =>
      Array.mapi
        (fun log index =>
           if (index =? Array.length prevLogs - 1)%Z
           then LogEntry.with_speech log transcript
           else log)
        prevLogs
  | None => prevLogs
  end.

Definition onresult (st : State) (transcript : string) : State :=
  mkState (emotionBuffer st) (amend transcript (emotionsLog st)) (currentEmotion st).

(** ** Events *)

(** What the event loop delivers to the component: a firing of the
    one-second interval ([refs] tells whether the video and canvas refs are
    set, [detections] and [now] what the detector and the clock give), or a
    recognition result. *)
Inductive Event : Type :=
  | Tick (refs : bool) (detections : list FaceExpressions) (now : string)
  | SpeechResult (transcript : string).

(** An exception leaves the async callback; the cells keep what they
    held when it was thrown. *)
Definition step (st : State) (ev : Event) : State :=
  match ev with
  | Tick refs detections now =>
      if refs then state_of (handleVideoPlay_tick st detections now) else st
  | SpeechResult transcript => onresult st transcript
  end.

Definition run (st : State) (evs : list Event) : State := fold_left step evs st.

(** ** [downloadLogs] *)

(** The line feed written [\n] in the source. *)
Definition LF : string := String (ascii_of_nat 10) EmptyString.

(** [`${log.time},${log.emotion},${log.speech}`] *)
Definition row (log : LogEntry.t) : string :=
  LogEntry.time log ++ "," ++ LogEntry.emotion log ++ "," ++ LogEntry.speech log.

Definition csvContent (emotionsLog : list LogEntry.t) : string :=
  ("data:text/csv;charset=utf-8,Time,Emotion,Speech" ++ LF)
  ++ String.concat LF (map row emotionsLog).

(** [encodeURI] on the UTF-8 bytes of a well-formed string: letters,
    digits and the characters [;/?:@&=+$,-_.!~*'()#] stay, every other
    byte becomes [%XX] in upper-case hexadecimal. *)
Definition uri_unescaped (c : ascii) : bool :=
  let n := nat_of_ascii c in
  ((65 <=? n) && (n <=? 90) || (97 <=? n) && (n <=? 122) || (48 <=? n) && (n <=? 57)
   || existsb (Ascii.eqb c) (list_ascii_of_string ";/?:@&=+$,-_.!~*'()#"))%nat.

Definition hex_digit (n : nat) : ascii :=
  nth n (list_ascii_of_string "0123456789ABCDEF") "0"%char.

Fixpoint encodeURI (s : string) : string :=
  match s with
  | EmptyString => EmptyString
  | String c rest =>
      if uri_unescaped c then String c (encodeURI rest)
      else
        let n := nat_of_ascii c in
        String "%" (String (hex_digit (n / 16)) (String (hex_digit (n mod 16)) (encodeURI rest)))
  end.

(** The anchor element that [downloadLogs] builds and clicks. *)
Record Anchor : Type := mkAnchor { href : string; download : string }.

Definition downloadLogs (emotionsLog : list LogEntry.t) : Anchor :=
  let encodedUri := encodeURI (csvContent emotionsLog) in
  mkAnchor encodedUri "emotions_log.csv".

(** * Vocabulary of the properties *)

Definition confidences_ok (emotions : list (string * number)) : Prop :=
  Forall (fun entry => is_confidence (snd entry) = true) emotions.

(** [b] does not come before [a] in descending order of confidence. *)
Definition desc (a b : string * number) : Prop := leb (snd b) (snd a) = true.

Definition numeric (buffer : list Sample.t) : Prop :=
  Forall (fun s => isNaN (Sample.confidence s) = false) buffer.

(** The winner of the reduction splits the buffer: nothing before it
    is stronger, everything after it is strictly weaker. *)
Definition last_maximum (buffer : list Sample.t) (best : Sample.t) : Prop :=
  exists before after,
    buffer = before ++ best :: after
    /\ Forall (fun s => leb (Sample.confidence s) (Sample.confidence best) = true) before
    /\ Forall (fun s => ltb (Sample.confidence s) (Sample.confidence best) = true) after.

(** The selection as the specification words it: the reduction keeps
    the previous winner unless a strictly greater confidence is found. *)
Definition keeps_previous_winner (prev current : Sample.t) : Sample.t :=
  if gtb (Sample.confidence current) (Sample.confidence prev) then current else prev.

Definition earliest_maximum (buffer : list Sample.t) : option Sample.t :=
  Array.reduce keeps_previous_winner buffer.

(** A tick produces a sample when the refs are set, a face is
    detected and its expression mapping has an entry. *)
Definition produces_sample (ev : Event) : bool :=
  match ev with
  | Tick true ((_ :: _) :: _) _ => true
  | _ => false
  end.

(** Number of samples that a sequence of events produces. *)
Definition samples (evs : list Event) : nat :=
  List.length (filter produces_sample evs).

(** The event appends a new entry to the log. *)
Definition commits (st : State) (ev : Event) : Prop :=
  exists entry, emotionsLog (step st ev) = emotionsLog st ++ [entry].

(** The successive states of a run. *)
Fixpoint trace (st : State) (evs : list Event) : list State :=
  st :: match evs with
        | [] => []
        | ev :: rest => trace (step st ev) rest
        end.

Definition speech_at (i : nat) (st : State) : option string :=
  option_map LogEntry.speech (nth_error (emotionsLog st) i).

(** How many times the speech of the entry at index [i] changes along
    a sequence of states. *)
Fixpoint speech_mutations (i : nat) (states : list State) : nat :=
  match states with
  | [] => 0
  | st :: rest =>
      match rest with
      | [] => 0
      | st' :: _ =>
          (match speech_at i st, speech_at i st' with
           | Some before, Some after => if String.eqb before after then 0 else 1
           | _, _ => 0
           end + speech_mutations i rest)%nat
      end
  end.

(** The document as the specification words it: the header row
    [Time,Emotion,Speech], then one line per entry, [time,emotion,speech],
    with commas between the fields and nothing quoted or escaped. *)
Definition csv_line (entry : LogEntry.t) : string :=
  (LogEntry.time entry ++ "," ++ LogEntry.emotion entry ++ "," ++ LogEntry.speech entry)%string.

Fixpoint csv_lines (log : list LogEntry.t) : string :=
  match log with
  | [] => EmptyString
  | entry :: rest =>
      match rest with
      | [] => csv_line entry
      | _ :: _ => (csv_line entry ++ LF ++ csv_lines rest)%string
      end
  end.

Definition csv_text (log : list LogEntry.t) : string :=
  ("Time,Emotion,Speech" ++ LF ++ csv_lines log)%string.

(** ** Inputs of the examples *)

Definition face1 : FaceExpressions :=
  [("neutral", d0_05); ("happy", d0_85); ("sad", d0_01); ("angry", d0_02);
   ("fearful", d0_03); ("disgusted", d0_03); ("surprised", d0_01)].

(** The buffer of the example: confidences [0.2, 0.9, 0.9, 0.1, 0.3]
    with emotions [a, b, c, d, e]. *)
Definition tie_buffer : list Sample.t :=
  [Sample.mk "a" d0_2; Sample.mk "b" d0_9; Sample.mk "c" d0_9;
   Sample.mk "d" d0_1; Sample.mk "e" d0_3].

(** Four ticks that see one face, and a fifth. *)
Definition four_ticks : list Event :=
  [Tick true [face1] "08:00:01"; Tick true [face1] "08:00:02";
   Tick true [face1] "08:00:03"; Tick true [face1] "08:00:04"].

Definition fifth_tick : Event := Tick true [face1] "08:00:05".

(** Five ticks that see one face, then two recognition results. *)
Definition two_results : list Event :=
  four_ticks ++ [fifth_tick; SpeechResult "hello"; SpeechResult "bye"].

(** A state whose buffer is the buffer of the example. *)
Definition tie_state : State := mkState tie_buffer [] EmptyString.

(** The state after five ticks that saw [face1]. *)
Definition one_entry : State :=
  mkState [] [LogEntry.mk "08:00:05" "happy" EmptyString] "happy".

(** The log of the example: [08:00:01], [happy], no speech, and
    [08:00:02], [sad], [hi there]. *)
Definition two_entries : list LogEntry.t :=
  [LogEntry.mk "08:00:01" "happy" EmptyString; LogEntry.mk "08:00:02" "sad" "hi there"].

(** * The rest of the component *)

(** ** The speech recognizer, the camera and the mount effect *)

(** The recognizer object that [initializeSpeechRecognition] creates and
    configures. *)
Record Recognition : Type := mkRecognition {
  continuous : bool;
  interimResults : bool
}.

(** The cells of the whole component: the React state, the recognizer
    ref, and the cells of the sampling pipeline. *)
Record Component : Type := mkComponent {
  modelsLoaded : bool;
  error : string;
  isListening : bool;
  recognitionRef : option Recognition;
  cells : State
}.

(** The component as [useState] and [useRef] initialise it. *)
Definition mounted : Component :=
  mkComponent false EmptyString false None initial.

(** Calls that a handler makes on the browser. *)
Inductive Effect : Type :=
  | GetUserMedia
  | AttachStream
  | MatchDimensions
  | RecognitionStart
  | RecognitionStop
  | SetTimeout (ms : nat)
  | SetInterval (ms : nat).

(** What the browser delivers to the component.  The models may resolve
    in a window that has speech recognition ([ModelsResolved true]), in one
    that has not ([ModelsResolved false]), or in one that has the property
    but whose constructor throws ([ModelsResolvedNoConstructor]). *)
Inductive Signal : Type :=
  | ModelsResolved (speechSupported : bool)
  | ModelsRejected
  | CameraResolved (videoRef : bool)
  | CameraRejected
  | Play (refs : bool)
  | Interval (refs : bool) (detections : list FaceExpressions) (now : string)
  | Result (transcript : string)
  | Ended
  | Restart
  | Unmount
  | ModelsResolvedNoConstructor.

Definition set_error (c : Component) (message : string) : Component :=
  mkComponent (modelsLoaded c) message (isListening c) (recognitionRef c) (cells c).

Definition set_listening (c : Component) (b : bool) : Component :=
  mkComponent (modelsLoaded c) (error c) b (recognitionRef c) (cells c).

Definition set_cells (c : Component) (st : State) : Component :=
  mkComponent (modelsLoaded c) (error c) (isListening c) (recognitionRef c) st.

(** [initializeSpeechRecognition]; [speechSupported] tells whether
    [window] has [SpeechRecognition] or [webkitSpeechRecognition]. *)
Definition initializeSpeechRecognition (c : Component) (speechSupported : bool) : Component :=
  if speechSupported then
    mkComponent (modelsLoaded c) (error c) (isListening c)
      (Some (mkRecognition false false)) (cells c)
  else set_error c "Speech recognition is not supported in this browser".

(** [loadModels] once both model promises have resolved: the flag is
    set, [startVideo] runs up to its request for the camera, and the
    recognizer is initialised. *)
Definition loadModels_resolved (c : Component) (speechSupported : bool)
  : Component * list Effect :=
  let c1 := mkComponent true (error c) (isListening c) (recognitionRef c) (cells c) in
  (initializeSpeechRecognition c1 speechSupported, [GetUserMedia]).

(** [loadModels] when both model promises have resolved and
    [new SpeechRecognition()] throws: the flag is set and the camera
    requested, the exception leaves [initializeSpeechRecognition] before the
    ref is assigned and reaches the [catch] of [loadModels]. *)
Definition loadModels_constructor_throws (c : Component) : Component * list Effect :=
  (mkComponent true "Error loading models" (isListening c) (recognitionRef c) (cells c),
   [GetUserMedia]).

(** The [catch] of [loadModels]. *)
Definition loadModels_rejected (c : Component) : Component * list Effect :=
  (set_error c "Error loading models", []).

(** [startVideo] after the camera request has settled. *)
Definition startVideo_resolved (c : Component) (videoRef : bool) : Component * list Effect :=
  (c, if videoRef then [AttachStream] else []).

Definition startVideo_rejected (c : Component) : Component * list Effect :=
  (set_error c "Error accessing webcam", []).

(** [handleVideoPlay], up to and including [setInterval]. *)
Definition handleVideoPlay (c : Component) (refs : bool) : Component * list Effect :=
  if refs then
    match recognitionRef c with
    | Some _ =>
        if negb (isListening c)
        then (set_listening c true, [MatchDimensions; RecognitionStart; SetInterval 1000])
        else (c, [MatchDimensions; SetInterval 1000])
    | None => (c, [MatchDimensions; SetInterval 1000])
    end
  else (c, []).

(** The [onend] callback. *)
Definition onend (c : Component) : Component * list Effect :=
  (set_listening c false, [SetTimeout 5000]).

(** The callback that [onend] gives to [setTimeout]. *)
Definition restart (c : Component) : Component * list Effect :=
  match recognitionRef c with
  | Some _ => (set_listening c true, [RecognitionStart])
  | None => (c, [])
  end.

(** The cleanup that the mount effect returns. *)
Definition cleanup (c : Component) : Component * list Effect :=
  match recognitionRef c with
  | Some _ => (c, [RecognitionStop])
  | None => (c, [])
  end.

(** One signal.  [onresult] and [onend] are properties of the recognizer
    object, so without a recognizer nothing listens to its events. *)
Definition handle (c : Component) (sig : Signal) : Component * list Effect :=
  match sig with
  | ModelsResolved speechSupported => loadModels_resolved c speechSupported
  | ModelsRejected => loadModels_rejected c
  | CameraResolved videoRef => startVideo_resolved c videoRef
  | CameraRejected => startVideo_rejected c
  | Play refs => handleVideoPlay c refs
  | Interval refs detections now =>
      (set_cells c (step (cells c) (Tick refs detections now)), [])
  | Result transcript =>
      match recognitionRef c with
      | Some _ => (set_cells c (step (cells c) (SpeechResult transcript)), [])
      | None => (c, [])
      end
  | Ended =>
      match recognitionRef c with
      | Some _ => onend c
      | None => (c, [])
      end
  | Restart => restart c
  | Unmount => cleanup c
  | ModelsResolvedNoConstructor => loadModels_constructor_throws c
  end.

(** A sequence of signals: the final cells and every effect, in order. *)
Fixpoint handle_all (c : Component) (sigs : list Signal) : Component * list Effect :=
  match sigs with
  | [] => (c, [])
  | sig :: rest =>
      let '(c1, effects1) := handle c sig in
      let '(c2, effects2) := handle_all c1 rest in
      (c2, effects1 ++ effects2)
  end.

(** ** What is rendered *)

(** The conditional parts of the JSX: the error banner, the loading
    note, the current emotion with its listening badge, and the download
    button.  A string is truthy when it is not empty. *)
Record View : Type := mkView {
  error_banner : option string;
  loading_note : bool;
  current_emotion : option (string * bool);
  download_button : bool
}.

Definition truthy (s : string) : bool :=
  match s with EmptyString => false | String _ _ => true end.

Definition render (c : Component) : View :=
  mkView
    (if truthy (error c) then Some (error c) else None)
    (negb (modelsLoaded c))
    (if modelsLoaded c && truthy (currentEmotion (cells c))
     then Some (currentEmotion (cells c), isListening c) else None)
    (0 <? Array.length (emotionsLog (cells c)))%Z.

(** * Vocabulary of the further properties *)

(** The top entry splits the mapping: everything before it is strictly
    weaker, nothing after it is stronger. *)
Definition first_maximum (emotions : list (string * number)) (strongest : string * number)
  : Prop :=
  exists before after,
    emotions = before ++ strongest :: after
    /\ Forall (fun entry => ltb (snd entry) (snd strongest) = true) before
    /\ Forall (fun entry => leb (snd entry) (snd strongest) = true) after.

(** The sample that a tick pushes, with the clock string of the tick. *)
Definition tick_sample (ev : Event) : option (Sample.t * string) :=
  match ev with
  | Tick true (emotions :: _) now =>
      match Array.sort by_confidence_desc (Object_entries emotions) with
      | strongestEmotion :: _ =>
          Some (Sample.mk (fst strongestEmotion) (snd strongestEmotion), now)
      | [] => None
      end
  | _ => None
  end.

(** The samples of a sequence of events, in order. *)
Fixpoint produced (evs : list Event) : list (Sample.t * string) :=
  match evs with
  | [] => []
  | ev :: rest =>
      match tick_sample ev with
      | Some p => p :: produced rest
      | None => produced rest
      end
  end.

(** The samples cut into consecutive groups of five: each full group
    gives one entry, with the clock string of its fifth sample, the emotion
    that the reduction of the group selects, and no speech. *)
Fixpoint batch_log (l : list (Sample.t * string)) : list LogEntry.t :=
  match l with
  | a :: b :: c :: d :: e :: rest =>
      LogEntry.mk (snd e)
        (Sample.emotion (fold_left stronger [fst b; fst c; fst d; fst e] (fst a)))
        EmptyString
      :: batch_log rest
  | _ => []
  end.

(** The samples left over after the last full group. *)
Fixpoint batch_rest (l : list (Sample.t * string)) : list Sample.t :=
  match l with
  | _ :: _ :: _ :: _ :: _ :: rest => batch_rest rest
  | _ => map fst l
  end.

(** The same, one sample at a time, from a buffer that already holds
    [pending]. *)
Fixpoint stream_log (pending : list Sample.t) (l : list (Sample.t * string))
  : list LogEntry.t * list Sample.t :=
  match l with
  | [] => ([], pending)
  | (sample, now) :: rest =>
      let buffer := pending ++ [sample] in
      if (5 <=? List.length buffer)%nat then
        match buffer with
        | [] => stream_log [] rest
        | first :: others =>
            (LogEntry.mk now (Sample.emotion (fold_left stronger others first)) EmptyString
               :: fst (stream_log [] rest),
             snd (stream_log [] rest))
        end
      else stream_log buffer rest
  end.

Definition erase_speech (log : list LogEntry.t) : list LogEntry.t :=
  map (fun entry => LogEntry.with_speech entry EmptyString) log.

(** Samples that the interval signals of a sequence produce. *)
Definition signal_samples (sigs : list Signal) : nat :=
  List.length
    (filter (fun sig =>
               match sig with
               | Interval refs detections now => produces_sample (Tick refs detections now)
               | _ => false
               end) sigs).

(** The state of a component that has no recognizer. *)
Definition deaf (c : Component) : Prop :=
  recognitionRef c = None
  /\ isListening c = false
  /\ Forall (fun entry => LogEntry.speech entry = EmptyString) (emotionsLog (cells c)).

(** A mount without speech support: the models load, the camera is
    granted, the video plays, five ticks see a face, and recognition events
    arrive all the same. *)
Definition deaf_session : list Signal :=
  [ModelsResolved false; CameraResolved true; Play true;
   Interval true [face1] "08:00:01"; Interval true [face1] "08:00:02";
   Interval true [face1] "08:00:03"; Interval true [face1] "08:00:04";
   Interval true [face1] "08:00:05"; Result "hello"; Ended; Restart; Unmount].

(** ** Characters of the exported text *)

Definition LF_char : ascii := ascii_of_nat 10.

Fixpoint occurs (c : ascii) (s : string) : bool :=
  match s with
  | EmptyString => false
  | String x rest => Ascii.eqb x c || occurs c rest
  end.

(** An entry whose time and emotion hold neither a comma nor a line feed
    and whose speech holds no line feed. *)
Definition clean (entry : LogEntry.t) : bool :=
  negb (occurs "," (LogEntry.time entry))
  && negb (occurs LF_char (LogEntry.time entry))
  && negb (occurs "," (LogEntry.emotion entry))
  && negb (occurs LF_char (LogEntry.emotion entry))
  && negb (occurs LF_char (LogEntry.speech entry)).

(** A character that may appear in the encoded text. *)
Definition uri_char (c : ascii) : bool := uri_unescaped c || Ascii.eqb c "%".

(** Percent-decoding, the inverse of the escaping that [encodeURI]
    applies. *)
Definition hex_value (c : ascii) : nat :=
  let n := nat_of_ascii c in
  if (n <=? 57)%nat then n - 48 else n - 55.

Fixpoint percent_decode (s : string) : string :=
  match s with
  | EmptyString => EmptyString
  | String c rest =>
      if Ascii.eqb c "%" then
        match rest with
        | String h (String l rest') =>
            String (ascii_of_nat (16 * hex_value h + hex_value l)) (percent_decode rest')
        | _ => String c (percent_decode rest)
        end
      else String c (percent_decode rest)
  end.

(** * The model at work *)

(** [0.9 - 0.2] rounds to the binary64 value of [0.7]. *)
Example sub_rounds : sub d0_9 d0_2 = S754_finite false 6305039478318694 (-53).
Proof. vm_compute. reflexivity. Qed.

(** The sort is stable: [fearful] stays ahead of [disgusted], [sad]
    ahead of [surprised]. *)
Example sort_face1 :
  map fst (Array.sort by_confidence_desc face1)
  = ["happy"; "neutral"; "fearful"; "disgusted"; "angry"; "sad"; "surprised"].
Proof. vm_compute. reflexivity. Qed.

Example run_four_ticks :
  run initial four_ticks
  = mkState [Sample.mk "happy" d0_85; Sample.mk "happy" d0_85;
             Sample.mk "happy" d0_85; Sample.mk "happy" d0_85] [] EmptyString.
Proof. vm_compute. reflexivity. Qed.

Example run_two_results :
  run initial two_results = mkState [] [LogEntry.mk "08:00:05" "happy" "bye"] "happy".
Proof. vm_compute. reflexivity. Qed.

(** A tick whose first face has an empty mapping throws before it
    touches the buffer. *)
Example tick_empty_mapping :
  handleVideoPlay_tick one_entry [[]] "08:00:06" = TypeError one_entry.
Proof. reflexivity. Qed.

(** Nothing is escaped for the CSV reader: a comma in the speech
    stays a bare comma in the row. *)
Example row_with_comma :
  row (LogEntry.mk "08:00:02" "sad" "hi, there") = "08:00:02,sad,hi, there".
Proof. reflexivity. Qed.

(** * Facts about binary64 numbers *)

Module NumberFacts.

Local Open Scope Z_scope.

(** ** The order on numbers that are not NaN *)

Ltac cmp_cases :=
  repeat match goal with
  | |- context [Z.compare ?a ?b] => destruct (Z.compare_spec a b)
  | |- context [Pos.compare_cont Eq ?a ?b] =>
      change (Pos.compare_cont Eq a b) with (Pos.compare a b);
      destruct (Pos.compare_spec a b)
  end.

Lemma ltb_lt (x y : number) :
  isNaN x = false -> isNaN y = false -> (ltb x y = true <-> num_lt x y).
Proof.
  unfold ltb, SFltb, num_lt, lex_lt.
  destruct x as [sx|sx| |sx mx ex], y as [sy|sy| |sy my ey]; simpl;
    try discriminate; intros _ _;
    try destruct sx; try destruct sy; simpl; cmp_cases; simpl;
    split; intros Hgoal; try discriminate Hgoal; try reflexivity; try lia.
Qed.

Lemma leb_le (x y : number) :
  isNaN x = false -> isNaN y = false -> (leb x y = true <-> num_le x y).
Proof.
  unfold leb, SFleb, num_le, lex_lt.
  destruct x as [sx|sx| |sx mx ex], y as [sy|sy| |sy my ey]; simpl;
    try discriminate; intros _ _;
    try destruct sx; try destruct sy; simpl; cmp_cases; simpl;
    split; intros Hgoal; try discriminate Hgoal; try reflexivity; try lia.
Qed.

(** ** The sign of a difference *)

Lemma digits2_size (m : positive) : digits2_pos m = Pos.size m.
Proof. induction m as [m IH|m IH|]; simpl; congruence. Qed.

Lemma digits2_bounds (m : positive) :
  2 ^ (Zpos (digits2_pos m) - 1) <= Zpos m < 2 ^ Zpos (digits2_pos m).
Proof.
  rewrite digits2_size. split.
  - pose proof (Pos.size_le m) as H.
    apply Pos2Z.pos_le_pos in H.
    rewrite Pos2Z.inj_pow in H.
    replace (Zpos (Pos.size m)) with (Z.succ (Zpos (Pos.size m) - 1)) in H by lia.
    rewrite Z.pow_succ_r in H by lia.
    change (Zpos m~0) with (2 * Zpos m) in H. lia.
  - pose proof (Pos.size_gt m) as H.
    apply Pos2Z.pos_lt_pos in H.
    rewrite Pos2Z.inj_pow in H. exact H.
Qed.

Lemma shr_1_m (r : shr_record) :
  0 <= shr_m r -> shr_m (shr_1 r) = shr_m r / 2.
Proof.
  destruct r as [m r s]. simpl. intros Hm.
  rewrite <- Z.div2_div.
  destruct m as [|[p|p|]|p]; try reflexivity. lia.
Qed.

Lemma iter_shr_m (p : positive) :
  forall r, 0 <= shr_m r -> shr_m (iter_pos shr_1 p r) = shr_m r / 2 ^ Zpos p.
Proof.
  induction p as [p IH|p IH|]; intros r Hr; simpl iter_pos.
  - assert (H1 : 0 <= shr_m (shr_1 r)).
    { rewrite shr_1_m by assumption. apply Z.div_pos; lia. }
    assert (H2 : 0 <= shr_m (iter_pos shr_1 p (shr_1 r))).
    { rewrite IH by assumption. apply Z.div_pos; [assumption|]. apply Z.pow_pos_nonneg; lia. }
    rewrite IH, IH, shr_1_m by assumption.
    assert (Hp : 0 < 2 ^ Zpos p) by (apply Z.pow_pos_nonneg; lia).
    rewrite !Z.div_div by lia.
    f_equal.
    replace (Zpos p~1) with (1 + (Zpos p + Zpos p)) by lia.
    rewrite !Z.pow_add_r by lia. change (2 ^ 1) with 2. ring.
  - assert (H2 : 0 <= shr_m (iter_pos shr_1 p r)).
    { rewrite IH by assumption. apply Z.div_pos; [assumption|]. apply Z.pow_pos_nonneg; lia. }
    rewrite IH, IH by assumption.
    assert (Hp : 0 < 2 ^ Zpos p) by (apply Z.pow_pos_nonneg; lia).
    rewrite !Z.div_div by lia.
    f_equal.
    replace (Zpos p~0) with (Zpos p + Zpos p) by lia.
    rewrite !Z.pow_add_r by lia. ring.
  - rewrite shr_1_m by assumption. reflexivity.
Qed.

Lemma shr_record_of_loc_m (m : Z) (l : location) : shr_m (shr_record_of_loc m l) = m.
Proof. destruct l as [|[]]; reflexivity. Qed.

(** Shifting a positive mantissa to its canonical exponent keeps it
    positive, provided the exponent is not below the least one. *)
Lemma shr_fexp_pos (m : positive) (e : Z) (l : location) :
  emin <= e ->
  0 < shr_m (fst (shr_fexp prec emax (Zpos m) e l))
  /\ emin <= snd (shr_fexp prec emax (Zpos m) e l).
Proof.
  unfold emin, SpecFloat.emin, shr_fexp, shr, fexp, SpecFloat.emin, prec, emax.
  intros He. simpl Zdigits2.
  pose proof (digits2_bounds m) as [Hlo _].
  set (d := Zpos (digits2_pos m)) in *.
  destruct (Z.max (d + e - 53) (3 - 1024 - 53) - e) as [|q|q] eqn:Hq; simpl fst; simpl snd;
    rewrite ?shr_record_of_loc_m; try lia.
  rewrite iter_shr_m by (rewrite shr_record_of_loc_m; lia).
  rewrite shr_record_of_loc_m. split; [|lia].
  apply Z.div_str_pos. split; [apply Z.pow_pos_nonneg; lia|].
  apply Z.le_trans with (2 ^ (d - 1)); [|assumption].
  apply Z.pow_le_mono_r; lia.
Qed.

Lemma round_nearest_even_pos (m : Z) (l : location) :
  0 < m -> 0 < round_nearest_even m l.
Proof. destruct l as [|[]]; simpl; try destruct (Z.even m); lia. Qed.

Lemma binary_round_aux_pos (m : positive) (e : Z) (l : location) :
  emin <= e ->
  ltb zero (binary_round_aux prec emax false (Zpos m) e l) = true.
Proof.
  intros He. unfold binary_round_aux.
  pose proof (shr_fexp_pos m e l He) as [H1 H2].
  destruct (shr_fexp prec emax (Zpos m) e l) as [mrs' e']. simpl in H1, H2.
  pose proof (round_nearest_even_pos _ (loc_of_shr_record mrs') H1) as H3.
  destruct (round_nearest_even (shr_m mrs') (loc_of_shr_record mrs')) as [|m'|m'];
    try lia.
  pose proof (shr_fexp_pos m' e' loc_Exact H2) as [H4 _].
  destruct (shr_fexp prec emax (Zpos m') e' loc_Exact) as [mrs'' e'']. simpl in H4.
  destruct (shr_m mrs'') as [|m''|m'']; try lia.
  destruct (e'' <=? emax - prec); reflexivity.
Qed.

Lemma binary_round_aux_neg (m e : Z) (l : location) :
  ltb zero (binary_round_aux prec emax true m e l) = false.
Proof.
  unfold binary_round_aux.
  destruct (shr_fexp prec emax m e l) as [mrs' e'].
  destruct (shr_fexp prec emax _ e' loc_Exact) as [mrs'' e''].
  destruct (shr_m mrs'') as [|m''|m'']; try reflexivity.
  destruct (e'' <=? emax - prec); reflexivity.
Qed.

Lemma shl_align_exp (m : positive) (e e' : Z) :
  emin <= e -> emin <= e' -> emin <= snd (shl_align m e e').
Proof.
  unfold shl_align. intros. destruct (e' - e); simpl; lia.
Qed.

Lemma binary_round_pos (m : positive) (e : Z) :
  emin <= e -> ltb zero (binary_round prec emax false m e) = true.
Proof.
  intros He. unfold binary_round.
  pose proof (shl_align_exp m e (fexp prec emax (Zpos (digits2_pos m) + e)) He) as H.
  destruct (shl_align m e _) as [mz ez]. simpl in H.
  apply binary_round_aux_pos. apply H.
  unfold emin, fexp. lia.
Qed.

Lemma binary_round_neg (m : positive) (e : Z) :
  ltb zero (binary_round prec emax true m e) = false.
Proof.
  unfold binary_round. destruct (shl_align m e _) as [mz ez].
  apply binary_round_aux_neg.
Qed.

(** Rounding never changes the sign of a value whose exponent is
    representable: the result is positive exactly when the value is. *)
Lemma binary_normalize_sign (m e : Z) :
  emin <= e ->
  ltb zero (binary_normalize prec emax m e false) = (0 <? m).
Proof.
  intros He. destruct m as [|m|m]; simpl.
  - reflexivity.
  - apply binary_round_pos; assumption.
  - apply binary_round_neg.
Qed.

Lemma iter_xO (d m : positive) : Zpos (Pos.iter xO m d) = Zpos m * 2 ^ Zpos d.
Proof.
  induction d as [|d IH] using Pos.peano_ind.
  - simpl. lia.
  - rewrite Pos.iter_succ, Pos2Z.inj_xO, IH, Pos2Z.inj_succ, Z.pow_succ_r by lia. ring.
Qed.

Lemma shl_align_m (m : positive) (e e' : Z) :
  e' <= e -> Zpos (fst (shl_align m e e')) = Zpos m * 2 ^ (e - e').
Proof.
  intros Hle. unfold shl_align.
  destruct (e' - e) as [|d|d] eqn:Hd; simpl fst.
  - replace (e - e') with 0 by lia. simpl. lia.
  - lia.
  - rewrite iter_xO. f_equal. f_equal. lia.
Qed.

(** What validity says of a finite binary64 value: the exponent is at
    least the least one, the mantissa has at most 53 bits, and exactly 53
    above the least exponent. *)
Lemma valid_finite (s : bool) (m : positive) (e : Z) :
  valid_binary prec emax (S754_finite s m e) = true ->
  emin <= e /\ Zpos m < 2 ^ 53 /\ (emin < e -> 2 ^ 52 <= Zpos m).
Proof.
  unfold valid_binary, bounded, canonical_mantissa, fexp, emin, SpecFloat.emin, prec, emax.
  intros H. apply andb_prop in H. destruct H as [H _]. apply Z.eqb_eq in H.
  pose proof (digits2_bounds m) as [Hlo Hhi].
  set (d := Zpos (digits2_pos m)) in *.
  split; [lia|]. split.
  - apply Z.lt_le_trans with (2 ^ d); [assumption|].
    apply Z.pow_le_mono_r; lia.
  - intros He. replace d with 53 in Hlo by lia. exact Hlo.
Qed.

(** For two positive valid values the order of the exactly aligned
    mantissas is the order of the numbers. *)
Lemma aligned_diff_sign (mx my : positive) (ex ey : Z) :
  valid_binary prec emax (S754_finite false mx ex) = true ->
  valid_binary prec emax (S754_finite false my ey) = true ->
  (0 <? Zpos (fst (shl_align my ey (Z.min ey ex)))
        - Zpos (fst (shl_align mx ex (Z.min ey ex))))
  = ltb (S754_finite false mx ex) (S754_finite false my ey).
Proof.
  intros Hx Hy.
  apply valid_finite in Hx. destruct Hx as (Hex & Hmx & Hnx).
  apply valid_finite in Hy. destruct Hy as (Hey & Hmy & Hny).
  rewrite !shl_align_m by lia.
  unfold ltb, SFltb. simpl SFcompare.
  change (Pos.compare_cont Eq mx my) with (Pos.compare mx my).
  destruct (Z.compare_spec ex ey) as [Heq|Hlt|Hgt].
  - subst ey. rewrite Z.min_id, Z.sub_diag. simpl (2 ^ 0). rewrite !Z.mul_1_r.
    destruct (Pos.compare_spec mx my) as [H|H|H]; apply Pos2Z.pos_lt_pos in H || idtac;
      try (subst; apply Z.ltb_ge; lia);
      try (apply Z.ltb_lt; lia); apply Z.ltb_ge; lia.
  - rewrite Z.min_r by lia. rewrite Z.sub_diag. simpl (2 ^ 0). rewrite Z.mul_1_r.
    apply Z.ltb_lt.
    assert (Hp : 2 ^ 1 <= 2 ^ (ey - ex)) by (apply Z.pow_le_mono_r; lia).
    change (2 ^ 1) with 2 in Hp.
    specialize (Hny ltac:(lia)). change (2 ^ 53) with 9007199254740992 in *.
    change (2 ^ 52) with 4503599627370496 in *. nia.
  - rewrite Z.min_l by lia. rewrite Z.sub_diag. simpl (2 ^ 0). rewrite Z.mul_1_r.
    apply Z.ltb_ge.
    assert (Hp : 2 ^ 1 <= 2 ^ (ex - ey)) by (apply Z.pow_le_mono_r; lia).
    change (2 ^ 1) with 2 in Hp.
    specialize (Hnx ltac:(lia)). change (2 ^ 53) with 9007199254740992 in *.
    change (2 ^ 52) with 4503599627370496 in *. nia.
Qed.

(** A confidence is a zero or a positive valid finite value. *)
Lemma is_confidence_inv (x : number) :
  is_confidence x = true ->
  (exists s, x = S754_zero s)
  \/ (exists m e, x = S754_finite false m e
                 /\ valid_binary prec emax (S754_finite false m e) = true).
Proof.
  unfold is_confidence. intros H.
  apply andb_prop in H. destruct H as [H H1].
  apply andb_prop in H. destruct H as [Hv H0].
  destruct x as [s|s| |s m e]; try discriminate.
  - left. exists s. reflexivity.
  - destruct s; discriminate.
  - destruct s; try discriminate. right. exists m, e. split; [reflexivity|exact Hv].
Qed.

Lemma is_confidence_not_nan (x : number) : is_confidence x = true -> isNaN x = false.
Proof.
  intros H. destruct (is_confidence_inv x H) as [[s ->]|(m & e & -> & _)]; reflexivity.
Qed.

(** The sign test [y - x > 0] that the sort performs decides [y > x]:
    the rounded difference of two confidences is positive exactly when
    the second is the smaller one. *)
Lemma sub_gt_zero (x y : number) :
  is_confidence x = true -> is_confidence y = true ->
  gtb (sub y x) zero = gtb y x.
Proof.
  intros Hx Hy. unfold gtb. change (SFltb zero (sub y x)) with (ltb zero (sub y x)).
  change (SFltb x y) with (ltb x y).
  destruct (is_confidence_inv x Hx) as [[sx ->]|(mx & ex & -> & Vx)];
    destruct (is_confidence_inv y Hy) as [[sy ->]|(my & ey & -> & Vy)].
  - destruct sx, sy; reflexivity.
  - reflexivity.
  - reflexivity.
  - unfold sub. simpl SFsub. simpl cond_Zopp.
    rewrite binary_normalize_sign.
    + apply aligned_diff_sign; assumption.
    + apply valid_finite in Vx, Vy. lia.
Qed.

End NumberFacts.

Import NumberFacts.

(** * The sort of the expression entries *)

Section SortFacts.

Context {A : Type}.
Variable comparefn : A -> A -> number.

(** Turning a NaN into [+0] does not change the test [> 0]. *)
Lemma SortCompare_gt (x y : A) :
  gtb (Array.SortCompare comparefn x y) zero = gtb (comparefn x y) zero.
Proof.
  unfold Array.SortCompare. destruct (comparefn x y); reflexivity.
Qed.

Lemma insert_perm (x : A) (l : list A) :
  Permutation (Array.insert comparefn x l) (x :: l).
Proof.
  induction l as [|y l IH]; simpl.
  - apply Permutation_refl.
  - destruct (gtb _ zero).
    + apply Permutation_trans with (y :: x :: l).
      * apply perm_skip. exact IH.
      * apply perm_swap.
    + apply Permutation_refl.
Qed.

Lemma sort_perm (l : list A) : Permutation (Array.sort comparefn l) l.
Proof.
  induction l as [|x l IH]; simpl.
  - apply perm_nil.
  - apply Permutation_trans with (x :: Array.sort comparefn l).
    + apply insert_perm.
    + apply perm_skip. exact IH.
Qed.

Lemma sort_nonempty (x : A) (l : list A) : Array.sort comparefn (x :: l) <> [].
Proof.
  intros H. pose proof (sort_perm (x :: l)) as P. rewrite H in P.
  apply Permutation_nil in P. discriminate P.
Qed.

End SortFacts.

Lemma by_confidence_desc_gt (a b : string * number) :
  is_confidence (snd a) = true -> is_confidence (snd b) = true ->
  gtb (by_confidence_desc a b) zero = gtb (snd b) (snd a).
Proof. intros Ha Hb. apply sub_gt_zero; assumption. Qed.

Lemma leb_of_not_gtb (x y : number) :
  isNaN x = false -> isNaN y = false -> gtb x y = false -> leb x y = true.
Proof.
  intros Hx Hy H. apply leb_le; try assumption.
  unfold num_le. intros Hlt. apply (ltb_lt y x Hy Hx) in Hlt.
  unfold gtb in H. unfold ltb in Hlt. congruence.
Qed.

Lemma leb_of_gtb (x y : number) :
  isNaN x = false -> isNaN y = false -> gtb x y = true -> leb y x = true.
Proof.
  intros Hx Hy H. apply leb_le; try assumption.
  apply (ltb_lt y x Hy Hx) in H. revert H. unfold num_le, num_lt, lex_lt.
  destruct (key x) as [[a1 a2] a3], (key y) as [[b1 b2] b3]. lia.
Qed.

Lemma leb_trans (x y z : number) :
  isNaN x = false -> isNaN y = false -> isNaN z = false ->
  leb x y = true -> leb y z = true -> leb x z = true.
Proof.
  intros Hx Hy Hz H1 H2.
  apply leb_le in H1; try assumption. apply leb_le in H2; try assumption.
  apply leb_le; try assumption. revert H1 H2. unfold num_le, lex_lt.
  destruct (key x) as [[a1 a2] a3], (key y) as [[b1 b2] b3], (key z) as [[c1 c2] c3]. lia.
Qed.

Lemma leb_refl (x : number) : isNaN x = false -> leb x x = true.
Proof.
  intros Hx. apply leb_le; try assumption. unfold num_le, lex_lt.
  destruct (key x) as [[a1 a2] a3]. lia.
Qed.

Lemma ltb_leb_trans (x y z : number) :
  isNaN x = false -> isNaN y = false -> isNaN z = false ->
  ltb x y = true -> leb y z = true -> ltb x z = true.
Proof.
  intros Hx Hy Hz H1 H2.
  apply ltb_lt in H1; try assumption. apply leb_le in H2; try assumption.
  apply ltb_lt; try assumption. revert H1 H2. unfold num_le, num_lt, lex_lt.
  destruct (key x) as [[a1 a2] a3], (key y) as [[b1 b2] b3], (key z) as [[c1 c2] c3]. lia.
Qed.

Lemma ltb_leb (x y : number) :
  isNaN x = false -> isNaN y = false -> ltb x y = true -> leb x y = true.
Proof.
  intros Hx Hy H. apply (leb_of_gtb y x); assumption.
Qed.

Lemma insert_sorted (x : string * number) (l : list (string * number)) :
  is_confidence (snd x) = true -> confidences_ok l ->
  StronglySorted desc l ->
  StronglySorted desc (Array.insert by_confidence_desc x l).
Proof.
  intros Hx Hl Hs. induction Hs as [|y l Hs IH Hy]; simpl.
  - constructor; constructor.
  - inversion Hl as [|? ? Cy Cl]; subst.
    pose proof (is_confidence_not_nan _ Hx) as Nx.
    pose proof (is_confidence_not_nan _ Cy) as Ny.
    rewrite SortCompare_gt, by_confidence_desc_gt by assumption.
    destruct (gtb (snd y) (snd x)) eqn:Hgt.
    + constructor.
      * apply IH. exact Cl.
      * apply Permutation_Forall with (x :: l).
        { apply Permutation_sym, insert_perm. }
        constructor; [|exact Hy].
        unfold desc. apply leb_of_gtb; assumption.
    + assert (Hyx : leb (snd y) (snd x) = true) by (apply leb_of_not_gtb; assumption).
      constructor.
      * constructor; assumption.
      * constructor; [exact Hyx|].
        rewrite Forall_forall in Hy, Cl |- *. intros z Hz.
        unfold desc. apply leb_trans with (snd y); try assumption.
        -- apply is_confidence_not_nan, Cl, Hz.
        -- apply Hy, Hz.
Qed.

Lemma sort_confidences_ok (l : list (string * number)) :
  confidences_ok l -> confidences_ok (Array.sort by_confidence_desc l).
Proof.
  intros H. apply Permutation_Forall with l; [|exact H].
  apply Permutation_sym, sort_perm.
Qed.

(** On confidences the model of [sort] does sort: its result is in
    descending order of confidence. *)
Lemma sort_sorted (l : list (string * number)) :
  confidences_ok l -> StronglySorted desc (Array.sort by_confidence_desc l).
Proof.
  induction l as [|x l IH]; intros H; simpl.
  - constructor.
  - inversion H as [|? ? Cx Cl]; subst.
    apply insert_sorted; [exact Cx|apply sort_confidences_ok; exact Cl|apply IH; exact Cl].
Qed.

(** * The commit of a full buffer *)

Lemma replace_colon (s : string) : replace_all ":" ":" s = s.
Proof.
  induction s as [|c s IH]; simpl.
  - reflexivity.
  - destruct (Ascii.eqb_spec c ":") as [->|_]; rewrite IH; reflexivity.
Qed.

Lemma fold_stronger_last_maximum (rest : list Sample.t) :
  forall first, numeric (first :: rest) ->
    numeric [fold_left stronger rest first]
    /\ last_maximum (first :: rest) (fold_left stronger rest first).
Proof.
  induction rest as [|current rest IH] using rev_ind; intros first Hn.
  - simpl. split; [exact Hn|]. exists [], []. repeat split; constructor.
  - rewrite fold_left_app. simpl fold_left.
    assert (Hn' : numeric (first :: rest) /\ isNaN (Sample.confidence current) = false).
    { unfold numeric in *. rewrite app_comm_cons in Hn.
      apply Forall_app in Hn. destruct Hn as [H1 H2].
      inversion H2; subst. split; assumption. }
    destruct Hn' as [Hn1 Nc].
    destruct (IH first Hn1) as [Nb (before & after & Hsplit & Hb & Ha)].
    set (prev := fold_left stronger rest first) in *.
    assert (Np : isNaN (Sample.confidence prev) = false) by (inversion Nb; assumption).
    unfold stronger.
    destruct (gtb (Sample.confidence prev) (Sample.confidence current)) eqn:Hgt.
    + split; [exact Nb|]. exists before, (after ++ [current]).
      split; [|split].
      * rewrite app_comm_cons, Hsplit, <- app_assoc. reflexivity.
      * exact Hb.
      * apply Forall_app. split; [exact Ha|]. constructor; [exact Hgt|constructor].
    + assert (Hle : leb (Sample.confidence prev) (Sample.confidence current) = true)
        by (apply leb_of_not_gtb; assumption).
      split; [constructor; [exact Nc|constructor]|].
      exists (first :: rest), []. split; [|split].
      * reflexivity.
      * rewrite Hsplit. unfold numeric in Hn1. rewrite Hsplit in Hn1.
        apply Forall_app in Hn1. destruct Hn1 as [Nbefore Nafter].
        inversion Nafter as [|? ? _ Nafter']; subst.
        apply Forall_app. split; [|constructor].
        -- rewrite Forall_forall in Hb, Nbefore |- *. intros s Hs.
           apply leb_trans with (Sample.confidence prev); auto.
        -- exact Hle.
        -- rewrite Forall_forall in Ha, Nafter' |- *. intros s Hs.
           apply ltb_leb; auto.
           apply ltb_leb_trans with (Sample.confidence prev); auto.
      * constructor.
Qed.

(** ** C1 *)

(** C1, as amended. When a buffer of exactly 5 samples with numeric
    confidences (none is NaN) is flushed, ties on the maximal confidence are
    resolved by last occurrence: the committed entry carries the emotion of
    the latest sample that attains the maximum, every earlier sample being at
    most as confident and every later one strictly less.  For confidences
    [0.2, 0.9, 0.9, 0.1, 0.3] with emotions [a, b, c, d, e] the committed
    emotion is [c]. *)
Theorem commit_takes_last_maximum (st : State) (now : string) :
  List.length (emotionBuffer st) = 5%nat ->
  numeric (emotionBuffer st) ->
  (exists best,
     last_maximum (emotionBuffer st) best
     /\ commit st now
        = Normal (mkState [] (emotionsLog st ++ [LogEntry.mk now (Sample.emotion best) EmptyString])
                    (Sample.emotion best)))
  /\ commit (mkState tie_buffer (emotionsLog st) (currentEmotion st)) now
     = Normal (mkState [] (emotionsLog st ++ [LogEntry.mk now "c" EmptyString]) "c").
Proof.
  intros Hlen Hn. split.
  - unfold commit, Array.length. rewrite Hlen. simpl Z.leb.
    rewrite replace_colon.
    destruct (emotionBuffer st) as [|first rest] eqn:Hb; [discriminate Hlen|].
    simpl Array.reduce.
    destruct (fold_stronger_last_maximum rest first Hn) as [_ Hmax].
    exists (fold_left stronger rest first). split; [exact Hmax|reflexivity].
  - unfold commit. simpl. rewrite replace_colon. reflexivity.
Qed.

Lemma commit_takes_last_maximum_witness :
  List.length (emotionBuffer tie_state) = 5%nat
  /\ numeric (emotionBuffer tie_state)
  /\ (exists best,
        last_maximum tie_buffer best
        /\ commit tie_state "08:00:05"
           = Normal (mkState [] [LogEntry.mk "08:00:05" (Sample.emotion best) EmptyString]
                       (Sample.emotion best)))
  /\ commit tie_state "08:00:05"
     = Normal (mkState [] [LogEntry.mk "08:00:05" "c" EmptyString] "c").
Proof.
  assert (H5 : List.length (emotionBuffer tie_state) = 5%nat) by reflexivity.
  assert (Hn : numeric (emotionBuffer tie_state)) by (simpl; repeat constructor).
  split; [exact H5|]. split; [exact Hn|].
  exact (commit_takes_last_maximum tie_state "08:00:05" H5 Hn).
Defined.

(** C1, as stated, fails on the example: the first sample that attains
    the maximum 0.9 is [b], yet the entry committed for that buffer carries
    [c]. *)
Lemma commit_first_occurrence_counterexample :
  option_map Sample.emotion (earliest_maximum tie_buffer) = Some "b"
  /\ map LogEntry.emotion
       (emotionsLog (state_of (commit tie_state "08:00:05")))
     = ["c"]
  /\ ~ (forall buffer log current now,
          List.length buffer = 5%nat ->
          exists best,
            earliest_maximum buffer = Some best
            /\ emotionsLog (state_of (commit (mkState buffer log current) now))
               = log ++ [LogEntry.mk now (Sample.emotion best) EmptyString]).
Proof.
  split; [reflexivity|]. split; [reflexivity|].
  intros H.
  destruct (H tie_buffer [] EmptyString "08:00:05" eq_refl) as (best & Hbest & Hlog).
  vm_compute in Hbest. injection Hbest as <-.
  vm_compute in Hlog. discriminate Hlog.
Qed.

(** * The speech amendment *)

Lemma mapi_from_length {A B : Type} (f : A -> Z -> B) (l : list A) :
  forall start, List.length (Array.mapi_from f start l) = List.length l.
Proof.
  induction l as [|x l IH]; intros start; simpl; [reflexivity|].
  rewrite IH. reflexivity.
Qed.

Lemma mapi_from_app {A B : Type} (f : A -> Z -> B) (l1 l2 : list A) :
  forall start,
    Array.mapi_from f start (l1 ++ l2)
    = Array.mapi_from f start l1 ++ Array.mapi_from f (start + Array.length l1)%Z l2.
Proof.
  unfold Array.length.
  induction l1 as [|x l1 IH]; intros start; simpl List.length; simpl app.
  - simpl. f_equal. lia.
  - simpl. rewrite IH. do 3 f_equal. lia.
Qed.

(** Below the target index the mapping function of [amend] returns
    each entry as it is. *)
Lemma mapi_from_below (g : LogEntry.t -> LogEntry.t) (target : Z) (l : list LogEntry.t) :
  forall start, (start + Array.length l <= target)%Z ->
    Array.mapi_from (fun log index => if (index =? target)%Z then g log else log) start l = l.
Proof.
  unfold Array.length.
  induction l as [|x l IH]; intros start H; simpl; [reflexivity|].
  simpl List.length in H.
  destruct (Z.eqb_spec start target) as [E|_]; [lia|].
  rewrite IH by lia. reflexivity.
Qed.

Lemma amend_nil (transcript : string) : amend transcript [] = [].
Proof. reflexivity. Qed.

Lemma amend_snoc (transcript : string) (earlier : list LogEntry.t) (last : LogEntry.t) :
  amend transcript (earlier ++ [last])
  = earlier ++ [LogEntry.with_speech last transcript].
Proof.
  unfold amend, Array.get, Array.mapi.
  assert (Hlen : (Array.length (earlier ++ [last]) - 1 = Array.length earlier)%Z).
  { unfold Array.length. rewrite length_app. simpl. lia. }
  rewrite Hlen.
  destruct (Z.ltb_spec (Array.length earlier) 0) as [Hneg|_];
    [unfold Array.length in Hneg; lia|].
  unfold Array.length at 1. rewrite Nat2Z.id.
  rewrite nth_error_app2, Nat.sub_diag by lia. simpl nth_error.
  rewrite mapi_from_app, mapi_from_below by lia.
  simpl. rewrite Z.eqb_refl. reflexivity.
Qed.

Lemma amend_length (transcript : string) (log : list LogEntry.t) :
  List.length (amend transcript log) = List.length log.
Proof.
  destruct log as [|x log] using rev_ind; [reflexivity|].
  rewrite amend_snoc, !length_app. reflexivity.
Qed.

Lemma nonempty_snoc {A : Type} (l : list A) :
  l <> [] -> exists earlier last, l = earlier ++ [last].
Proof.
  destruct l as [|x l] using rev_ind; [congruence|].
  intros _. exists l, x. reflexivity.
Qed.

(** ** C4 *)

(** C4. On a non-empty log the recognizer's result callback replaces the
    speech of the last entry by the transcript and nothing else: the last
    entry keeps its time and emotion, the earlier entries and the length of
    the log are unchanged, and so are the sample buffer and the current
    emotion. *)
Theorem onresult_amends_last_only (st : State) (transcript : string) :
  emotionsLog st <> [] ->
  exists earlier last,
    emotionsLog st = earlier ++ [last]
    /\ emotionsLog (onresult st transcript)
       = earlier ++ [LogEntry.mk (LogEntry.time last) (LogEntry.emotion last) transcript]
    /\ List.length (emotionsLog (onresult st transcript)) = List.length (emotionsLog st)
    /\ emotionBuffer (onresult st transcript) = emotionBuffer st
    /\ currentEmotion (onresult st transcript) = currentEmotion st
    /\ step st (SpeechResult transcript) = onresult st transcript.
Proof.
  intros Hne. destruct (nonempty_snoc _ Hne) as (earlier & last & Hlog).
  exists earlier, last. simpl. rewrite Hlog, amend_snoc, !length_app.
  repeat split; reflexivity.
Qed.

Lemma onresult_amends_last_only_witness :
  emotionsLog one_entry <> []
  /\ exists earlier last,
       emotionsLog one_entry = earlier ++ [last]
       /\ emotionsLog (onresult one_entry "hello")
          = earlier ++ [LogEntry.mk (LogEntry.time last) (LogEntry.emotion last) "hello"]
       /\ List.length (emotionsLog (onresult one_entry "hello"))
          = List.length (emotionsLog one_entry)
       /\ emotionBuffer (onresult one_entry "hello") = emotionBuffer one_entry
       /\ currentEmotion (onresult one_entry "hello") = currentEmotion one_entry
       /\ step one_entry (SpeechResult "hello") = onresult one_entry "hello".
Proof.
  assert (Hne : emotionsLog one_entry <> []) by discriminate.
  split; [exact Hne|].
  exact (onresult_amends_last_only one_entry "hello" Hne).
Defined.

(** ** C5 *)

(** C5. On an empty log the result callback changes nothing: the log stays
    empty, of length 0, and the transcript appears nowhere in the state. *)
Theorem onresult_empty_log (buffer : list Sample.t) (current transcript : string) :
  amend transcript [] = []
  /\ onresult (mkState buffer [] current) transcript = mkState buffer [] current
  /\ step (mkState buffer [] current) (SpeechResult transcript) = mkState buffer [] current
  /\ List.length (emotionsLog (onresult (mkState buffer [] current) transcript)) = 0%nat.
Proof. repeat split. Qed.

(** ** C9 *)

(** C9. Two results in a row on a non-empty log, with no commit in between,
    leave the log that the second result alone would leave: the last entry
    ends with the second transcript and the first transcript is gone. *)
Theorem onresult_twice_overwrites (st : State) (t1 t2 : string) :
  emotionsLog st <> [] ->
  onresult (onresult st t1) t2 = onresult st t2
  /\ run st [SpeechResult t1; SpeechResult t2] = run st [SpeechResult t2]
  /\ exists earlier last,
       emotionsLog st = earlier ++ [last]
       /\ emotionsLog (onresult (onresult st t1) t2)
          = earlier ++ [LogEntry.with_speech last t2].
Proof.
  intros Hne. destruct (nonempty_snoc _ Hne) as (earlier & last & Hlog).
  assert (E : onresult (onresult st t1) t2 = onresult st t2).
  { unfold onresult. simpl. rewrite Hlog, !amend_snoc. reflexivity. }
  split; [exact E|]. split; [exact E|].
  exists earlier, last. split; [exact Hlog|].
  rewrite E. simpl. rewrite Hlog, amend_snoc. reflexivity.
Qed.

Lemma onresult_twice_overwrites_witness :
  emotionsLog one_entry <> []
  /\ onresult (onresult one_entry "hello") "bye" = onresult one_entry "bye"
  /\ run one_entry [SpeechResult "hello"; SpeechResult "bye"]
     = run one_entry [SpeechResult "bye"]
  /\ exists earlier last,
       emotionsLog one_entry = earlier ++ [last]
       /\ emotionsLog (onresult (onresult one_entry "hello") "bye")
          = earlier ++ [LogEntry.with_speech last "bye"].
Proof.
  assert (Hne : emotionsLog one_entry <> []) by discriminate.
  split; [exact Hne|].
  exact (onresult_twice_overwrites one_entry "hello" "bye" Hne).
Defined.

(** * Ticks, commits and the buffer *)

Lemma commit_below (st : State) (now : string) :
  (List.length (emotionBuffer st) < 5)%nat -> commit st now = Normal st.
Proof.
  intros H. unfold commit, Array.length.
  destruct (Z.leb_spec 5 (Z.of_nat (List.length (emotionBuffer st)))); [lia|reflexivity].
Qed.

Lemma commit_full (st : State) (now : string) :
  (5 <= List.length (emotionBuffer st))%nat ->
  exists best,
    Array.reduce stronger (emotionBuffer st) = Some best
    /\ commit st now
       = Normal (mkState [] (emotionsLog st ++ [LogEntry.mk now (Sample.emotion best) EmptyString])
                   (Sample.emotion best)).
Proof.
  intros H. unfold commit, Array.length.
  destruct (Z.leb_spec 5 (Z.of_nat (List.length (emotionBuffer st)))); [|lia].
  destruct (emotionBuffer st) as [|first rest]; [simpl in H; lia|].
  exists (fold_left stronger rest first). rewrite replace_colon. split; reflexivity.
Qed.

Lemma step_sample (st : State) (ev : Event) :
  produces_sample ev = true ->
  exists sample now, step st ev = state_of (commit (push st sample) now).
Proof.
  destruct ev as [[|] [|[|entry emotions] others] now|transcript]; try discriminate.
  intros _. unfold step, handleVideoPlay_tick, Object_entries.
  destruct (Array.sort by_confidence_desc (entry :: emotions)) as [|top rest] eqn:Hs.
  - exfalso. exact (sort_nonempty _ _ _ Hs).
  - eexists _, now. reflexivity.
Qed.

Lemma step_no_sample (st : State) (ev : Event) :
  produces_sample ev = false ->
  emotionBuffer (step st ev) = emotionBuffer st
  /\ List.length (emotionsLog (step st ev)) = List.length (emotionsLog st)
  /\ (forall refs detections now, ev = Tick refs detections now -> step st ev = st).
Proof.
  destruct ev as [[|] [|[|entry emotions] others] now|transcript]; try discriminate;
    intros _; simpl; repeat split; try reflexivity.
  apply amend_length. discriminate.
Qed.

(** What one event does to a buffer that holds fewer than 5 samples. *)
Lemma step_cases (st : State) (ev : Event) :
  (List.length (emotionBuffer st) < 5)%nat ->
  (produces_sample ev = true /\ List.length (emotionBuffer st) = 4%nat
   /\ emotionBuffer (step st ev) = []
   /\ exists entry, emotionsLog (step st ev) = emotionsLog st ++ [entry])
  \/ (produces_sample ev = true /\ (List.length (emotionBuffer st) < 4)%nat
      /\ List.length (emotionBuffer (step st ev)) = S (List.length (emotionBuffer st))
      /\ emotionsLog (step st ev) = emotionsLog st)
  \/ (produces_sample ev = false
      /\ emotionBuffer (step st ev) = emotionBuffer st
      /\ List.length (emotionsLog (step st ev)) = List.length (emotionsLog st)).
Proof.
  intros Hlt. destruct (produces_sample ev) eqn:Hp.
  - destruct (step_sample st ev Hp) as (sample & now & ->).
    assert (Hpush : List.length (emotionBuffer (push st sample))
                    = S (List.length (emotionBuffer st))).
    { simpl. rewrite length_app. simpl. lia. }
    destruct (Nat.eq_dec (List.length (emotionBuffer st)) 4) as [E|NE].
    + left. destruct (commit_full (push st sample) now) as (best & _ & ->); [lia|].
      repeat split; try assumption. eexists. reflexivity.
    + right. left. rewrite commit_below by lia.
      repeat split; try assumption. lia.
  - right. right. destruct (step_no_sample st ev Hp) as (H1 & H2 & _).
    repeat split; assumption.
Qed.

Lemma samples_cons (ev : Event) (evs : list Event) :
  samples (ev :: evs) = ((if produces_sample ev then 1 else 0) + samples evs)%nat.
Proof. unfold samples. simpl. destruct (produces_sample ev); reflexivity. Qed.

(** Five samples make one entry: along any run the entries and the
    buffered samples account for every sample produced. *)
Lemma run_accounting (evs : list Event) :
  forall st, (List.length (emotionBuffer st) < 5)%nat ->
    (List.length (emotionBuffer (run st evs)) < 5)%nat
    /\ (5 * List.length (emotionsLog (run st evs)) + List.length (emotionBuffer (run st evs))
        = 5 * List.length (emotionsLog st) + List.length (emotionBuffer st) + samples evs)%nat.
Proof.
  induction evs as [|ev evs IH]; intros st Hlt.
  - simpl. unfold samples. simpl. lia.
  - change (run st (ev :: evs)) with (run (step st ev) evs).
    rewrite samples_cons.
    destruct (step_cases st ev Hlt)
      as [(Hp & H4 & Hb & entry & Hl)|[(Hp & H4 & Hb & Hl)|(Hp & Hb & Hl)]];
      rewrite Hp.
    + destruct (IH (step st ev)) as [I1 I2]; [rewrite Hb; simpl; lia|].
      split; [exact I1|]. rewrite I2, Hb, Hl, length_app. simpl. lia.
    + destruct (IH (step st ev)) as [I1 I2]; [lia|].
      split; [exact I1|]. rewrite I2, Hb, Hl. lia.
    + destruct (IH (step st ev)) as [I1 I2]; [rewrite Hb; exact Hlt|].
      split; [exact I1|]. rewrite I2, Hb, Hl. lia.
Qed.

(** ** C2 *)

(** C2. Along every sequence of events from the initial state the buffer
    holds fewer than 5 samples before each event; an event commits an entry
    exactly when it produces the sample that brings the buffer to 5, the
    commit appends exactly one entry and leaves the buffer empty; an event
    that does not commit leaves the number of entries unchanged (a tick
    leaves the log itself unchanged) and a buffer of fewer than 5 samples;
    the entries count the produced samples in fives, so a sequence that
    produces fewer than 5 samples commits nothing. *)
Theorem buffer_flushes_at_five (evs : list Event) (ev : Event) :
  (List.length (emotionBuffer (run initial evs)) < 5)%nat
  /\ (commits (run initial evs) ev
      <-> produces_sample ev = true
          /\ S (List.length (emotionBuffer (run initial evs))) = 5%nat)
  /\ (commits (run initial evs) ev ->
      emotionBuffer (step (run initial evs) ev) = []
      /\ List.length (emotionsLog (step (run initial evs) ev))
         = S (List.length (emotionsLog (run initial evs))))
  /\ (~ commits (run initial evs) ev ->
      (List.length (emotionBuffer (step (run initial evs) ev)) < 5)%nat
      /\ List.length (emotionsLog (step (run initial evs) ev))
         = List.length (emotionsLog (run initial evs))
      /\ (forall refs detections now, ev = Tick refs detections now ->
          emotionsLog (step (run initial evs) ev) = emotionsLog (run initial evs)))
  /\ (5 * List.length (emotionsLog (run initial evs))
      + List.length (emotionBuffer (run initial evs)) = samples evs)%nat
  /\ ((samples evs < 5)%nat -> emotionsLog (run initial evs) = []).
Proof.
  destruct (run_accounting evs initial) as [Hlt Hacc]; [simpl; lia|].
  simpl in Hacc.
  set (st := run initial evs) in *.
  assert (Hno : forall entry, List.length (emotionsLog (step st ev))
                              = List.length (emotionsLog st) ->
                emotionsLog (step st ev) <> emotionsLog st ++ [entry]).
  { intros entry Hl Heq. rewrite Heq, length_app in Hl. simpl in Hl. lia. }
  assert (Hiff : commits st ev
                 <-> produces_sample ev = true /\ S (List.length (emotionBuffer st)) = 5%nat).
  { unfold commits.
    destruct (step_cases st ev Hlt)
      as [(Hp & H4 & Hb & entry & Hl)|[(Hp & H4 & Hb & Hl)|(Hp & Hb & Hl)]].
    - split; [intros _; split; [exact Hp|lia]|intros _; exists entry; exact Hl].
    - split; [|lia]. intros [entry Heq]. exfalso.
      apply (Hno entry); [rewrite Hl; reflexivity|exact Heq].
    - split; [|intros [Hp' _]; congruence]. intros [entry Heq]. exfalso.
      apply (Hno entry); [exact Hl|exact Heq]. }
  split; [exact Hlt|]. split; [exact Hiff|]. split; [|split; [|split]].
  - intros Hc. apply Hiff in Hc. destruct Hc as [Hp H5].
    destruct (step_cases st ev Hlt)
      as [(_ & H4 & Hb & entry & Hl)|[(_ & H4 & _)|(Hp' & _)]]; try lia; try congruence.
    split; [exact Hb|]. rewrite Hl, length_app. simpl. lia.
  - intros Hnc.
    destruct (step_cases st ev Hlt)
      as [(Hp & H4 & Hb & entry & Hl)|[(Hp & H4 & Hb & Hl)|(Hp & Hb & Hl)]].
    + exfalso. apply Hnc, Hiff. split; [exact Hp|lia].
    + rewrite Hl. split; [lia|]. split; [reflexivity|]. intros; reflexivity.
    + rewrite Hb. split; [exact Hlt|]. split; [exact Hl|].
      intros refs detections now E.
      destruct (step_no_sample st ev Hp) as (_ & _ & Hsame).
      rewrite (Hsame refs detections now E). reflexivity.
  - lia.
  - intros Hs. destruct (emotionsLog st); [reflexivity|]. simpl in Hacc. lia.
Qed.

Lemma buffer_flushes_at_five_witness :
  commits (run initial four_ticks) fifth_tick
  /\ emotionBuffer (step (run initial four_ticks) fifth_tick) = []
  /\ List.length (emotionsLog (step (run initial four_ticks) fifth_tick)) = 1%nat
  /\ (samples four_ticks < 5)%nat
  /\ emotionsLog (run initial four_ticks) = [].
Proof.
  destruct (buffer_flushes_at_five four_ticks fifth_tick)
    as (_ & Hiff & Hcommit & _ & _ & Hfew).
  assert (Hc : commits (run initial four_ticks) fifth_tick)
    by (apply Hiff; split; reflexivity).
  assert (Hs : (samples four_ticks < 5)%nat) by (unfold samples; simpl; lia).
  destruct (Hcommit Hc) as [Hb Hl].
  split; [exact Hc|]. split; [exact Hb|]. split; [exact Hl|].
  split; [exact Hs|]. exact (Hfew Hs).
Defined.

(** ** C8 *)

(** C8. A tick that detects no face changes nothing: the buffer, its
    length, the log and the current emotion after the tick are those before
    it, and no exception arises. *)
Theorem tick_without_face (st : State) (refs : bool) (now : string) :
  handleVideoPlay_tick st [] now = Normal st
  /\ step st (Tick refs [] now) = st
  /\ emotionBuffer (step st (Tick refs [] now)) = emotionBuffer st
  /\ List.length (emotionBuffer (step st (Tick refs [] now))) = List.length (emotionBuffer st)
  /\ emotionsLog (step st (Tick refs [] now)) = emotionsLog st.
Proof. destruct refs; repeat split. Qed.

(** * What an event may change in the log *)

Lemma commit_log (st : State) (now : string) :
  emotionsLog (state_of (commit st now)) = emotionsLog st
  \/ exists entry, emotionsLog (state_of (commit st now)) = emotionsLog st ++ [entry].
Proof.
  unfold commit.
  destruct (5 <=? Array.length (emotionBuffer st))%Z; [|left; reflexivity].
  destruct (Array.reduce stronger (emotionBuffer st)) as [best|]; [|left; reflexivity].
  right. eexists. reflexivity.
Qed.

Lemma tick_log (st : State) (refs : bool) (detections : list FaceExpressions) (now : string) :
  emotionsLog (step st (Tick refs detections now)) = emotionsLog st
  \/ exists entry, emotionsLog (step st (Tick refs detections now)) = emotionsLog st ++ [entry].
Proof.
  unfold step, handleVideoPlay_tick.
  destruct refs; [|left; reflexivity].
  destruct detections as [|emotions others]; [left; reflexivity|].
  destruct (Array.sort by_confidence_desc (Object_entries emotions)) as [|top rest];
    [left; reflexivity|].
  apply (commit_log (push st _) now).
Qed.

(** One event keeps every entry of the log in its place with its time
    and emotion; only a recognition result changes a speech field, and only
    that of the entry that is last at that moment. *)
Lemma step_frame (st : State) (ev : Event) (i : nat) (entry : LogEntry.t) :
  nth_error (emotionsLog st) i = Some entry ->
  exists entry',
    nth_error (emotionsLog (step st ev)) i = Some entry'
    /\ LogEntry.time entry' = LogEntry.time entry
    /\ LogEntry.emotion entry' = LogEntry.emotion entry
    /\ (LogEntry.speech entry' <> LogEntry.speech entry ->
        exists transcript,
          ev = SpeechResult transcript
          /\ S i = List.length (emotionsLog st)
          /\ LogEntry.speech entry' = transcript).
Proof.
  intros Hi.
  assert (Hlt : (i < List.length (emotionsLog st))%nat)
    by (apply nth_error_Some; congruence).
  destruct ev as [refs detections now|transcript].
  - exists entry. repeat split; try congruence.
    destruct (tick_log st refs detections now) as [->|[e ->]]; [exact Hi|].
    rewrite nth_error_app1 by exact Hlt. exact Hi.
  - simpl step. simpl emotionsLog.
    destruct (emotionsLog st) as [|x l] eqn:Hlog using rev_ind; [simpl in Hlt; lia|].
    clear IHl. rewrite amend_snoc. rewrite length_app in Hlt |- *. simpl in Hlt |- *.
    destruct (Nat.eq_dec i (List.length l)) as [->|Hne].
    + rewrite nth_error_app2, Nat.sub_diag in Hi |- * by lia.
      simpl in Hi |- *. injection Hi as ->.
      exists (LogEntry.with_speech entry transcript).
      repeat split. intros _. exists transcript. repeat split. lia.
    + rewrite nth_error_app1 in Hi |- * by lia.
      exists entry. repeat split; try assumption. congruence.
Qed.

(** ** C6 *)

(** C6, as amended. An entry of the log keeps its place, its time and its
    emotion through every event and every run, so no entry is ever removed or
    reordered; its speech changes only by a recognition result that arrives
    while the entry is the last of the log, and then becomes the transcript.
    (How often that happens to one entry is not bounded.) *)
Theorem log_entries_persist (st : State) (i : nat) (entry : LogEntry.t) :
  nth_error (emotionsLog st) i = Some entry ->
  (forall ev,
     exists entry',
       nth_error (emotionsLog (step st ev)) i = Some entry'
       /\ LogEntry.time entry' = LogEntry.time entry
       /\ LogEntry.emotion entry' = LogEntry.emotion entry
       /\ (LogEntry.speech entry' <> LogEntry.speech entry ->
           exists transcript,
             ev = SpeechResult transcript
             /\ S i = List.length (emotionsLog st)
             /\ LogEntry.speech entry' = transcript))
  /\ (forall evs,
        exists entry',
          nth_error (emotionsLog (run st evs)) i = Some entry'
          /\ LogEntry.time entry' = LogEntry.time entry
          /\ LogEntry.emotion entry' = LogEntry.emotion entry).
Proof.
  intros Hi. split.
  - intros ev. apply step_frame. exact Hi.
  - intros evs. revert st entry Hi.
    induction evs as [|ev evs IH]; intros st entry Hi.
    + exists entry. repeat split. exact Hi.
    + destruct (step_frame st ev i entry Hi) as (e1 & H1 & T1 & E1 & _).
      destruct (IH (step st ev) e1 H1) as (e2 & H2 & T2 & E2).
      exists e2. repeat split; [exact H2|congruence|congruence].
Qed.

Lemma log_entries_persist_witness :
  nth_error (emotionsLog one_entry) 0 = Some (LogEntry.mk "08:00:05" "happy" EmptyString)
  /\ (forall ev,
        exists entry',
          nth_error (emotionsLog (step one_entry ev)) 0 = Some entry'
          /\ LogEntry.time entry' = "08:00:05"
          /\ LogEntry.emotion entry' = "happy"
          /\ (LogEntry.speech entry' <> EmptyString ->
              exists transcript,
                ev = SpeechResult transcript
                /\ 1%nat = List.length (emotionsLog one_entry)
                /\ LogEntry.speech entry' = transcript))
  /\ (forall evs,
        exists entry',
          nth_error (emotionsLog (run one_entry evs)) 0 = Some entry'
          /\ LogEntry.time entry' = "08:00:05"
          /\ LogEntry.emotion entry' = "happy").
Proof.
  assert (H0 : nth_error (emotionsLog one_entry) 0
               = Some (LogEntry.mk "08:00:05" "happy" EmptyString)) by reflexivity.
  split; [exact H0|].
  exact (log_entries_persist one_entry 0 (LogEntry.mk "08:00:05" "happy" EmptyString) H0).
Defined.

(** C6, as stated, fails: after five ticks have committed an entry, two
    recognition results in a row change the speech of that one entry twice. *)
Lemma speech_mutated_twice_counterexample :
  map (speech_at 0) (trace initial two_results)
  = [None; None; None; None; None; Some EmptyString; Some "hello"; Some "bye"]
  /\ speech_mutations 0 (trace initial two_results) = 2%nat
  /\ ~ (forall evs i, (speech_mutations i (trace initial evs) <= 1)%nat).
Proof.
  split; [vm_compute; reflexivity|]. split; [vm_compute; reflexivity|].
  intros H. specialize (H two_results 0%nat).
  vm_compute in H. lia.
Qed.

(** * The exported document *)

Lemma join_rows (log : list LogEntry.t) : String.concat LF (map row log) = csv_lines log.
Proof.
  induction log as [|entry rest IH]; [reflexivity|].
  destruct rest as [|next rest]; [reflexivity|].
  change (String.concat LF (map row (entry :: next :: rest)))
    with (row entry ++ LF ++ String.concat LF (map row (next :: rest)))%string.
  rewrite IH. reflexivity.
Qed.

(** ** C3 *)

(** C3. For every log the content that [downloadLogs] builds is, after the
    [data:text/csv;charset=utf-8,] scheme prefix, the header row
    [Time,Emotion,Speech] followed by one line per entry, [time,emotion,speech],
    comma-delimited with nothing quoted or escaped, and the anchor offers its
    URI encoding under the name [emotions_log.csv]; for the two-entry log of
    the example the text is the header, [08:00:01,happy,] and
    [08:00:02,sad,hi there] on three lines. *)
Theorem download_is_csv (log : list LogEntry.t) :
  csvContent log = ("data:text/csv;charset=utf-8," ++ csv_text log)%string
  /\ downloadLogs log
     = mkAnchor (encodeURI ("data:text/csv;charset=utf-8," ++ csv_text log)) "emotions_log.csv"
  /\ csv_text two_entries
     = ("Time,Emotion,Speech" ++ LF ++ "08:00:01,happy," ++ LF ++ "08:00:02,sad,hi there")%string
  /\ csvContent two_entries
     = ("data:text/csv;charset=utf-8,"
        ++ "Time,Emotion,Speech" ++ LF ++ "08:00:01,happy," ++ LF ++ "08:00:02,sad,hi there")%string
  /\ href (downloadLogs two_entries)
     = "data:text/csv;charset=utf-8,Time,Emotion,Speech%0A08:00:01,happy,%0A08:00:02,sad,hi%20there".
Proof.
  assert (E : csvContent log = ("data:text/csv;charset=utf-8," ++ csv_text log)%string).
  { unfold csvContent, csv_text. rewrite join_rows. reflexivity. }
  split; [exact E|]. split; [unfold downloadLogs; rewrite E; reflexivity|].
  repeat split.
Qed.

(** ** C10 *)

(** C10. On an empty log [downloadLogs] still returns its anchor, and the
    content after the scheme prefix is the header row [Time,Emotion,Speech]
    with its line feed and no entry line. *)
Theorem download_empty_log :
  csvContent [] = ("data:text/csv;charset=utf-8," ++ "Time,Emotion,Speech" ++ LF)%string
  /\ csv_lines [] = EmptyString
  /\ downloadLogs []
     = mkAnchor "data:text/csv;charset=utf-8,Time,Emotion,Speech%0A" "emotions_log.csv".
Proof. repeat split. Qed.

(** * The sample of a tick *)

(** What a tick that sees a face does to the cells, written out: with
    fewer than 4 samples in the buffer the new sample is appended and nothing
    else changes; with 4 the five samples are reduced, the winner is logged
    and the buffer is emptied. *)
Lemma tick_explicit (st : State) (emotions : FaceExpressions)
      (others : list FaceExpressions) (now : string)
      (top : string * number) (rest : list (string * number)) :
  Array.sort by_confidence_desc (Object_entries emotions) = top :: rest ->
  exists bestEmotion,
    Array.reduce stronger (emotionBuffer st ++ [Sample.mk (fst top) (snd top)])
    = Some bestEmotion
    /\ step st (Tick true (emotions :: others) now)
       = if (List.length (emotionBuffer st) <? 4)%nat
         then mkState (emotionBuffer st ++ [Sample.mk (fst top) (snd top)])
                (emotionsLog st) (currentEmotion st)
         else mkState []
                (emotionsLog st ++ [LogEntry.mk now (Sample.emotion bestEmotion) EmptyString])
                (Sample.emotion bestEmotion).
Proof.
  intros Hs. unfold step, handleVideoPlay_tick. rewrite Hs.
  set (sample := Sample.mk (fst top) (snd top)).
  assert (Hlen : List.length (emotionBuffer (push st sample))
                 = S (List.length (emotionBuffer st))).
  { simpl. rewrite length_app. simpl. lia. }
  assert (Hred : exists best,
             Array.reduce stronger (emotionBuffer st ++ [sample]) = Some best).
  { destruct (emotionBuffer st ++ [sample]) as [|first more] eqn:E.
    - destruct (emotionBuffer st); discriminate E.
    - eexists. reflexivity. }
  destruct (Nat.ltb_spec (List.length (emotionBuffer st)) 4) as [Hlt|Hge].
  - destruct Hred as [best Hbest]. exists best. split; [exact Hbest|].
    rewrite commit_below by lia. reflexivity.
  - destruct (commit_full (push st sample) now) as (best & Hbest & ->); [lia|].
    exists best. split; [exact Hbest|reflexivity].
Qed.

(** ** C7 *)

(** C7. On a tick that detects at least one face whose expression mapping
    is not empty and holds confidences in [0,1] (the range of the data model,
    so none is NaN), the entries of the first face's mapping are sorted by
    confidence in descending order and the top entry, an entry of maximal
    confidence in the mapping, is the sample appended to the buffer: with
    fewer than 4 samples buffered the buffer after the tick is the buffer
    before it followed by that sample; with 4 buffered the sample is the
    fifth of the group that the tick reduces and commits. *)
Theorem tick_pushes_strongest
  (st : State) (emotions : FaceExpressions) (others : list FaceExpressions)
  (now : string) :
  emotions <> [] -> confidences_ok emotions ->
  exists strongestEmotion rest bestEmotion,
    Array.sort by_confidence_desc (Object_entries emotions) = strongestEmotion :: rest
    /\ Permutation (strongestEmotion :: rest) emotions
    /\ StronglySorted desc (strongestEmotion :: rest)
    /\ In strongestEmotion emotions
    /\ Forall (fun entry => leb (snd entry) (snd strongestEmotion) = true) emotions
    /\ emotionBuffer (push st (Sample.mk (fst strongestEmotion) (snd strongestEmotion)))
       = emotionBuffer st ++ [Sample.mk (fst strongestEmotion) (snd strongestEmotion)]
    /\ handleVideoPlay_tick st (emotions :: others) now
       = commit (push st (Sample.mk (fst strongestEmotion) (snd strongestEmotion))) now
    /\ Array.reduce stronger
         (emotionBuffer st ++ [Sample.mk (fst strongestEmotion) (snd strongestEmotion)])
       = Some bestEmotion
    /\ step st (Tick true (emotions :: others) now)
       = if (List.length (emotionBuffer st) <? 4)%nat
         then mkState
                (emotionBuffer st ++ [Sample.mk (fst strongestEmotion) (snd strongestEmotion)])
                (emotionsLog st) (currentEmotion st)
         else mkState []
                (emotionsLog st ++ [LogEntry.mk now (Sample.emotion bestEmotion) EmptyString])
                (Sample.emotion bestEmotion).
Proof.
  intros Hne Hok.
  pose proof (sort_perm by_confidence_desc emotions) as P.
  pose proof (sort_sorted emotions Hok) as S.
  destruct (Array.sort by_confidence_desc emotions) as [|top rest] eqn:Hs.
  - apply Permutation_nil in P. contradiction.
  - assert (Hin : In top emotions)
      by (apply Permutation_in with (top :: rest); [exact P|left; reflexivity]).
    destruct (tick_explicit st emotions others now top rest Hs) as (best & Hbest & Hstep).
    exists top, rest, best.
    split; [exact Hs|]. split; [exact P|]. split; [exact S|]. split; [exact Hin|].
    split.
    { apply Permutation_Forall with (top :: rest); [exact P|].
      inversion S as [|? ? _ Hall]; subst. constructor; [|exact Hall].
      apply leb_refl, is_confidence_not_nan.
      unfold confidences_ok in Hok. rewrite Forall_forall in Hok. apply Hok, Hin. }
    split; [reflexivity|]. split.
    { unfold handleVideoPlay_tick, Object_entries. rewrite Hs. reflexivity. }
    split; [exact Hbest|exact Hstep].
Qed.

Lemma face1_confidences : confidences_ok face1.
Proof. unfold confidences_ok, face1. repeat constructor. Defined.

Lemma tick_pushes_strongest_witness :
  face1 <> [] /\ confidences_ok face1
  /\ exists strongestEmotion rest bestEmotion,
       Array.sort by_confidence_desc (Object_entries face1) = strongestEmotion :: rest
       /\ Permutation (strongestEmotion :: rest) face1
       /\ StronglySorted desc (strongestEmotion :: rest)
       /\ In strongestEmotion face1
       /\ Forall (fun entry => leb (snd entry) (snd strongestEmotion) = true) face1
       /\ emotionBuffer (push initial (Sample.mk (fst strongestEmotion) (snd strongestEmotion)))
          = emotionBuffer initial ++ [Sample.mk (fst strongestEmotion) (snd strongestEmotion)]
       /\ handleVideoPlay_tick initial [face1] "08:00:01"
          = commit (push initial (Sample.mk (fst strongestEmotion) (snd strongestEmotion)))
              "08:00:01"
       /\ Array.reduce stronger
            (emotionBuffer initial
             ++ [Sample.mk (fst strongestEmotion) (snd strongestEmotion)])
          = Some bestEmotion
       /\ step initial (Tick true [face1] "08:00:01")
          = if (List.length (emotionBuffer initial) <? 4)%nat
            then mkState
                   (emotionBuffer initial
                    ++ [Sample.mk (fst strongestEmotion) (snd strongestEmotion)])
                   (emotionsLog initial) (currentEmotion initial)
            else mkState []
                   (emotionsLog initial
                    ++ [LogEntry.mk "08:00:01" (Sample.emotion bestEmotion) EmptyString])
                   (Sample.emotion bestEmotion).
Proof.
  assert (Hne : face1 <> []) by discriminate.
  split; [exact Hne|]. split; [exact face1_confidences|].
  exact (tick_pushes_strongest initial face1 [] "08:00:01" Hne face1_confidences).
Defined.

(** * Further properties of the sampling pipeline *)

(** ** The strongest entry of a tick *)

Lemma sort_first_maximum (emotions : list (string * number)) :
  confidences_ok emotions -> emotions <> [] ->
  exists strongest rest,
    Array.sort by_confidence_desc emotions = strongest :: rest
    /\ first_maximum emotions strongest.
Proof.
  induction emotions as [|x l IH]; intros Hok Hne; [congruence|].
  inversion Hok as [|? ? Cx Cl]; subst.
  pose proof (is_confidence_not_nan _ Cx) as Nx.
  destruct l as [|x' l'].
  - exists x, []. split; [reflexivity|]. exists [], []. repeat split; constructor.
  - destruct (IH Cl ltac:(discriminate)) as (y & r & Hs & before & after & Hsplit & Hb & Ha).
    assert (Cy : is_confidence (snd y) = true).
    { unfold confidences_ok in Cl. rewrite Forall_forall in Cl. apply Cl.
      rewrite Hsplit. apply in_or_app. right. left. reflexivity. }
    pose proof (is_confidence_not_nan _ Cy) as Ny.
    change (Array.sort by_confidence_desc (x :: x' :: l'))
      with (Array.insert by_confidence_desc x (Array.sort by_confidence_desc (x' :: l'))).
    rewrite Hs. simpl Array.insert.
    rewrite SortCompare_gt, by_confidence_desc_gt by assumption.
    destruct (gtb (snd y) (snd x)) eqn:Hgt.
    + exists y, (Array.insert by_confidence_desc x r). split; [reflexivity|].
      exists (x :: before), after. split; [rewrite Hsplit; reflexivity|].
      split; [constructor; [exact Hgt|exact Hb]|exact Ha].
    + assert (Hyx : leb (snd y) (snd x) = true) by (apply leb_of_not_gtb; assumption).
      exists x, (y :: r). split; [reflexivity|].
      exists [], (x' :: l'). split; [reflexivity|]. split; [constructor|].
      rewrite Hsplit. unfold confidences_ok in Cl. rewrite Hsplit in Cl.
      apply Forall_app in Cl. destruct Cl as [Cb Ca].
      inversion Ca as [|? ? _ Ca']; subst.
      apply Forall_app. split; [|constructor; [exact Hyx|]].
      * rewrite Forall_forall in Hb, Cb |- *. intros e He.
        pose proof (is_confidence_not_nan _ (Cb e He)) as Ne.
        apply leb_trans with (snd y); try assumption.
        apply ltb_leb; auto.
      * rewrite Forall_forall in Ha, Ca' |- *. intros e He.
        pose proof (is_confidence_not_nan _ (Ca' e He)) as Ne.
        apply leb_trans with (snd y); auto.
Qed.

(** X1. Within one tick a tie goes to the entry that comes first in the
    mapping: for a non-empty mapping of confidences in [0,1] the sample
    appended to the buffer is the first entry that attains the maximal
    confidence, every entry before it being strictly weaker.  With fewer than
    4 samples buffered the buffer after the tick is the buffer before it
    followed by that sample; with 4 buffered the sample is the fifth of the
    group that the tick reduces and commits. *)
Theorem tick_strongest_is_first_maximum
  (st : State) (emotions : FaceExpressions) (others : list FaceExpressions)
  (now : string) :
  emotions <> [] -> confidences_ok emotions ->
  exists strongestEmotion bestEmotion,
    first_maximum emotions strongestEmotion
    /\ Array.reduce stronger
         (emotionBuffer st ++ [Sample.mk (fst strongestEmotion) (snd strongestEmotion)])
       = Some bestEmotion
    /\ step st (Tick true (emotions :: others) now)
       = if (List.length (emotionBuffer st) <? 4)%nat
         then mkState
                (emotionBuffer st ++ [Sample.mk (fst strongestEmotion) (snd strongestEmotion)])
                (emotionsLog st) (currentEmotion st)
         else mkState []
                (emotionsLog st ++ [LogEntry.mk now (Sample.emotion bestEmotion) EmptyString])
                (Sample.emotion bestEmotion).
Proof.
  intros Hne Hok.
  destruct (sort_first_maximum emotions Hok Hne) as (top & rest & Hs & Hmax).
  destruct (tick_explicit st emotions others now top rest Hs) as (best & Hbest & Hstep).
  exists top, best. split; [exact Hmax|]. split; [exact Hbest|exact Hstep].
Qed.

Lemma tick_strongest_is_first_maximum_witness :
  face1 <> [] /\ confidences_ok face1
  /\ exists strongestEmotion bestEmotion,
       first_maximum face1 strongestEmotion
       /\ Array.reduce stronger
            (emotionBuffer initial
             ++ [Sample.mk (fst strongestEmotion) (snd strongestEmotion)])
          = Some bestEmotion
       /\ step initial (Tick true [face1] "08:00:01")
          = if (List.length (emotionBuffer initial) <? 4)%nat
            then mkState
                   (emotionBuffer initial
                    ++ [Sample.mk (fst strongestEmotion) (snd strongestEmotion)])
                   (emotionsLog initial) (currentEmotion initial)
            else mkState []
                   (emotionsLog initial
                    ++ [LogEntry.mk "08:00:01" (Sample.emotion bestEmotion) EmptyString])
                   (Sample.emotion bestEmotion).
Proof.
  assert (Hne : face1 <> []) by discriminate.
  assert (Hok : confidences_ok face1) by (unfold confidences_ok, face1; repeat constructor).
  split; [exact Hne|]. split; [exact Hok|].
  exact (tick_strongest_is_first_maximum initial face1 [] "08:00:01" Hne Hok).
Defined.

(** ** The shape of a tick *)

(** A tick reads the buffer only: either it replaces the buffer and
    leaves the rest, or it empties the buffer, appends one entry without
    speech and shows that entry's emotion. *)
Lemma tick_shape (buffer : list Sample.t) (refs : bool)
      (detections : list FaceExpressions) (now : string) :
  (exists buffer', forall log current,
      step (mkState buffer log current) (Tick refs detections now)
      = mkState buffer' log current)
  \/ (exists entry,
        LogEntry.speech entry = EmptyString /\ LogEntry.time entry = now
        /\ forall log current,
            step (mkState buffer log current) (Tick refs detections now)
            = mkState [] (log ++ [entry]) (LogEntry.emotion entry)).
Proof.
  unfold step, handleVideoPlay_tick.
  destruct refs; [|left; exists buffer; reflexivity].
  destruct detections as [|emotions others]; [left; exists buffer; reflexivity|].
  destruct (Array.sort by_confidence_desc (Object_entries emotions)) as [|top rest];
    [left; exists buffer; reflexivity|].
  unfold commit, push. simpl emotionBuffer. simpl emotionsLog. simpl currentEmotion.
  destruct (5 <=? Array.length (buffer ++ [Sample.mk (fst top) (snd top)]))%Z;
    [|left; eexists; reflexivity].
  destruct (Array.reduce stronger (buffer ++ [Sample.mk (fst top) (snd top)])) as [best|];
    [|left; eexists; reflexivity].
  right. exists (LogEntry.mk now (Sample.emotion best) EmptyString).
  rewrite replace_colon. repeat split.
Qed.

Lemma amend_emotions (transcript : string) (log : list LogEntry.t) :
  map LogEntry.emotion (amend transcript log) = map LogEntry.emotion log.
Proof.
  destruct log as [|x log] using rev_ind; [reflexivity|].
  rewrite amend_snoc, !map_app. reflexivity.
Qed.

(** ** X2 *)

(** X2. The emotion on display is the emotion of the latest entry: after
    any sequence of ticks and recognition results from the mount state,
    [currentEmotion] is the emotion of the last entry of the log, and the
    empty string while the log is empty. *)
Theorem current_emotion_is_last_entry (evs : list Event) :
  currentEmotion (run initial evs)
  = last (map LogEntry.emotion (emotionsLog (run initial evs))) EmptyString.
Proof.
  assert (G : forall evs st,
             currentEmotion st = last (map LogEntry.emotion (emotionsLog st)) EmptyString ->
             currentEmotion (run st evs)
             = last (map LogEntry.emotion (emotionsLog (run st evs))) EmptyString).
  { clear evs. induction evs as [|ev evs IH]; intros st Hst; [exact Hst|].
    change (run st (ev :: evs)) with (run (step st ev) evs). apply IH.
    destruct st as [buffer log current]. simpl in Hst.
    destruct ev as [refs detections now|transcript].
    - destruct (tick_shape buffer refs detections now)
        as [(b' & Hstep)|(entry & _ & _ & Hstep)]; rewrite Hstep; simpl.
      + exact Hst.
      + rewrite map_app. simpl. rewrite last_last. reflexivity.
    - simpl. rewrite amend_emotions. exact Hst. }
  apply G. reflexivity.
Qed.

(** ** X4 *)

Lemma step_frozen (st : State) (ev : Event) (i : nat) (entry : LogEntry.t) :
  nth_error (emotionsLog st) i = Some entry ->
  (S i < List.length (emotionsLog st))%nat ->
  nth_error (emotionsLog (step st ev)) i = Some entry
  /\ (S i < List.length (emotionsLog (step st ev)))%nat.
Proof.
  intros Hi Hlt. destruct ev as [refs detections now|transcript].
  - destruct (tick_log st refs detections now) as [->|[e ->]]; [split; assumption|].
    rewrite nth_error_app1, length_app by lia. split; [exact Hi|lia].
  - simpl step. simpl emotionsLog.
    destruct (emotionsLog st) as [|x l] using rev_ind; [simpl in Hlt; lia|].
    clear IHl. rewrite amend_snoc. rewrite length_app in Hlt |- *. simpl in Hlt |- *.
    rewrite nth_error_app1 in Hi |- * by lia. split; [exact Hi|lia].
Qed.

(** X4. An entry that is no longer the last of the log is final: whatever
    ticks and recognition results follow, it stays at its index with the
    same time, emotion and speech. *)
Theorem entry_final_once_not_last
  (st : State) (evs : list Event) (i : nat) (entry : LogEntry.t) :
  nth_error (emotionsLog st) i = Some entry ->
  (S i < List.length (emotionsLog st))%nat ->
  nth_error (emotionsLog (run st evs)) i = Some entry.
Proof.
  revert st. induction evs as [|ev evs IH]; intros st Hi Hlt; [exact Hi|].
  change (run st (ev :: evs)) with (run (step st ev) evs).
  destruct (step_frozen st ev i entry Hi Hlt) as [Hi' Hlt'].
  apply IH; assumption.
Qed.

Lemma entry_final_once_not_last_witness :
  nth_error (emotionsLog (mkState [] two_entries "sad")) 0
  = Some (LogEntry.mk "08:00:01" "happy" EmptyString)
  /\ (1 < List.length (emotionsLog (mkState [] two_entries "sad")))%nat
  /\ nth_error (emotionsLog (run (mkState [] two_entries "sad") two_results)) 0
     = Some (LogEntry.mk "08:00:01" "happy" EmptyString).
Proof.
  assert (H0 : nth_error (emotionsLog (mkState [] two_entries "sad")) 0
               = Some (LogEntry.mk "08:00:01" "happy" EmptyString)) by reflexivity.
  assert (H1 : (1 < List.length (emotionsLog (mkState [] two_entries "sad")))%nat)
    by (simpl; lia).
  split; [exact H0|]. split; [exact H1|].
  exact (entry_final_once_not_last (mkState [] two_entries "sad") two_results 0
           (LogEntry.mk "08:00:01" "happy" EmptyString) H0 H1).
Defined.

(** ** X5 *)

(** X5. A recognition result and a tick can be taken in either order when
    the tick commits nothing: both orders leave the same state, in which the
    last entry, if there is one, carries the transcript.  When the tick
    commits, the order decides where the transcript lands: taken after the
    tick it is the speech of the new entry; taken before the tick it is the
    speech of the previous last entry (or is lost, on an empty log) and the
    new entry has no speech. *)
Theorem result_and_tick_order
  (st : State) (refs : bool) (detections : list FaceExpressions) (now transcript : string) :
  (~ commits st (Tick refs detections now)
   /\ step (step st (SpeechResult transcript)) (Tick refs detections now)
      = step (step st (Tick refs detections now)) (SpeechResult transcript)
   /\ ((emotionsLog st = []
        /\ emotionsLog (step (step st (Tick refs detections now)) (SpeechResult transcript))
           = [])
       \/ exists earlier last,
            emotionsLog st = earlier ++ [last]
            /\ emotionsLog (step (step st (Tick refs detections now))
                              (SpeechResult transcript))
               = earlier
                 ++ [LogEntry.mk (LogEntry.time last) (LogEntry.emotion last) transcript]))
  \/ (commits st (Tick refs detections now)
      /\ exists emotion,
           emotionsLog (step (step st (Tick refs detections now)) (SpeechResult transcript))
           = emotionsLog st ++ [LogEntry.mk now emotion transcript]
           /\ ((emotionsLog st = []
                /\ emotionsLog (step (step st (SpeechResult transcript))
                                  (Tick refs detections now))
                   = [LogEntry.mk now emotion EmptyString])
               \/ exists earlier last,
                    emotionsLog st = earlier ++ [last]
                    /\ emotionsLog (step (step st (SpeechResult transcript))
                                      (Tick refs detections now))
                       = earlier
                         ++ [LogEntry.mk (LogEntry.time last) (LogEntry.emotion last)
                               transcript;
                             LogEntry.mk now emotion EmptyString])).
Proof.
  destruct st as [buffer log current].
  change (step (mkState buffer log current) (SpeechResult transcript))
    with (mkState buffer (amend transcript log) current).
  assert (Hlog : (log = [] /\ amend transcript log = [])
                 \/ exists earlier last,
                      log = earlier ++ [last]
                      /\ amend transcript log
                         = earlier
                           ++ [LogEntry.mk (LogEntry.time last) (LogEntry.emotion last)
                                 transcript]).
  { destruct log as [|x l] using rev_ind.
    - left. split; reflexivity.
    - right. exists l, x. split; [reflexivity|apply amend_snoc]. }
  destruct (tick_shape buffer refs detections now)
    as [(b' & Hstep)|(entry & Hspeech & Htime & Hstep)].
  - left. split; [|split].
    + intros [e He]. rewrite Hstep in He. simpl in He.
      apply (f_equal (@List.length _)) in He. rewrite length_app in He. simpl in He. lia.
    + rewrite !Hstep. reflexivity.
    + rewrite Hstep. simpl emotionsLog.
      destruct Hlog as [[-> Ha]|(earlier & last & -> & Ha)].
      * left. split; [reflexivity|exact Ha].
      * right. exists earlier, last. split; [reflexivity|exact Ha].
  - right. split; [exists entry; rewrite Hstep; reflexivity|].
    exists (LogEntry.emotion entry).
    assert (Hentry : entry = LogEntry.mk now (LogEntry.emotion entry) EmptyString).
    { destruct entry as [t e s]. simpl in Hspeech, Htime. subst. reflexivity. }
    rewrite !Hstep. simpl emotionsLog. split.
    + simpl. rewrite amend_snoc. rewrite Hentry at 1. reflexivity.
    + destruct Hlog as [[-> Ha]|(earlier & last & -> & Ha)]; rewrite Ha.
      * left. split; [reflexivity|]. rewrite Hentry at 1. reflexivity.
      * right. exists earlier, last. split; [reflexivity|].
        rewrite <- app_assoc. rewrite Hentry at 1. reflexivity.
Qed.

(** ** X3 *)

Lemma step_of_sample (st : State) (ev : Event) :
  match tick_sample ev with
  | Some (sample, now) => step st ev = state_of (commit (push st sample) now)
  | None =>
      match ev with
      | Tick _ _ _ => step st ev = st
      | SpeechResult transcript => step st ev = onresult st transcript
      end
  end.
Proof.
  destruct ev as [[|] [|emotions others] now|transcript]; try reflexivity.
  unfold tick_sample, step, handleVideoPlay_tick.
  destruct (Array.sort by_confidence_desc (Object_entries emotions)); reflexivity.
Qed.

Lemma erase_amend (transcript : string) (log : list LogEntry.t) :
  erase_speech (amend transcript log) = erase_speech log.
Proof.
  unfold erase_speech.
  destruct log as [|x log] using rev_ind; [reflexivity|].
  rewrite amend_snoc, !map_app. reflexivity.
Qed.

Lemma stream_log_cons (pending : list Sample.t) (sample : Sample.t) (now : string)
      (rest : list (Sample.t * string)) :
  stream_log pending ((sample, now) :: rest)
  = if (5 <=? List.length (pending ++ [sample]))%nat then
      match pending ++ [sample] with
      | [] => stream_log [] rest
      | first :: others =>
          (LogEntry.mk now (Sample.emotion (fold_left stronger others first)) EmptyString
             :: fst (stream_log [] rest),
           snd (stream_log [] rest))
      end
    else stream_log (pending ++ [sample]) rest.
Proof. reflexivity. Qed.

(** The run, seen through the samples it produces. *)
Lemma run_stream (evs : list Event) :
  forall st,
    erase_speech (emotionsLog (run st evs))
    = erase_speech (emotionsLog st) ++ fst (stream_log (emotionBuffer st) (produced evs))
    /\ emotionBuffer (run st evs) = snd (stream_log (emotionBuffer st) (produced evs)).
Proof.
  induction evs as [|ev evs IH]; intros st.
  - simpl. rewrite app_nil_r. split; reflexivity.
  - change (run st (ev :: evs)) with (run (step st ev) evs).
    destruct (IH (step st ev)) as [IHlog IHbuf]. rewrite IHlog, IHbuf. clear IHlog IHbuf.
    pose proof (step_of_sample st ev) as Hstep. simpl produced.
    destruct (tick_sample ev) as [[sample now]|].
    + rewrite Hstep, stream_log_cons.
      destruct (5 <=? List.length (emotionBuffer st ++ [sample]))%nat eqn:Hfull.
      * apply Nat.leb_le in Hfull.
        destruct (commit_full (push st sample) now Hfull) as (best & Hbest & ->).
        simpl in Hbest. simpl state_of.
        destruct (emotionBuffer st ++ [sample]) as [|first others];
          [discriminate Hbest|].
        simpl in Hbest. injection Hbest as <-.
        simpl emotionsLog. simpl emotionBuffer. unfold erase_speech.
        rewrite map_app, <- app_assoc. split; reflexivity.
      * apply Nat.leb_gt in Hfull.
        rewrite commit_below by exact Hfull. split; reflexivity.
    + destruct ev as [refs detections now|transcript]; rewrite Hstep.
      * split; reflexivity.
      * simpl. rewrite erase_amend. split; reflexivity.
Qed.

Lemma stream_batches (n : nat) :
  forall l, (List.length l <= n)%nat -> stream_log [] l = (batch_log l, batch_rest l).
Proof.
  induction n as [|n IH]; intros l Hl.
  - destruct l; [reflexivity|simpl in Hl; lia].
  - destruct l as [|[sa na] [|[sb nb] [|[sc nc] [|[sd nd] [|[se ne] rest]]]]];
      try reflexivity.
    simpl in Hl.
    assert (Hrest : stream_log [] rest = (batch_log rest, batch_rest rest))
      by (apply IH; lia).
    simpl. rewrite Hrest. reflexivity.
Qed.

(** X3. The log is the stream of samples cut into consecutive groups of
    five: whatever ticks and recognition results arrive from the mount state,
    the entries are, speech apart, one per full group of five samples, each
    with the clock string of the group's fifth tick and the emotion that the
    reduction of the group selects, and the buffer holds the samples left
    over after the last full group. *)
Theorem log_is_batches_of_five (evs : list Event) :
  erase_speech (emotionsLog (run initial evs)) = batch_log (produced evs)
  /\ emotionBuffer (run initial evs) = batch_rest (produced evs).
Proof.
  destruct (run_stream evs initial) as [Hlog Hbuf].
  rewrite Hlog, Hbuf. simpl emotionBuffer. simpl emotionsLog.
  rewrite (stream_batches (List.length (produced evs)) (produced evs) (Nat.le_refl _)).
  split; reflexivity.
Qed.

(** * Further properties of the export *)

Lemma str_app_assoc (a b c : string) : ((a ++ b) ++ c = a ++ (b ++ c))%string.
Proof. induction a as [|x a IH]; simpl; [reflexivity|]. rewrite IH. reflexivity. Qed.

Lemma str_app_nil_r (a : string) : (a ++ EmptyString = a)%string.
Proof. induction a as [|x a IH]; simpl; [reflexivity|]. rewrite IH. reflexivity. Qed.

Lemma str_app_inv_head (p a b : string) : (p ++ a = p ++ b)%string -> a = b.
Proof.
  induction p as [|x p IH]; simpl; intros H; [exact H|].
  injection H as H. apply IH. exact H.
Qed.

Lemma occurs_app (c : ascii) (a b : string) :
  occurs c (a ++ b)%string = occurs c a || occurs c b.
Proof.
  induction a as [|x a IH]; simpl; [reflexivity|].
  rewrite IH, orb_assoc. reflexivity.
Qed.

(** ** The escaping of [encodeURI] *)

Lemma hex_digit_unescaped (k : nat) : (k < 16)%nat -> uri_unescaped (hex_digit k) = true.
Proof. intros H. do 16 (destruct k as [|k]; [reflexivity|]). lia. Qed.

Lemma hex_value_digit (k : nat) : (k < 16)%nat -> hex_value (hex_digit k) = k.
Proof. intros H. do 16 (destruct k as [|k]; [reflexivity|]). lia. Qed.

Lemma high_nibble (c : ascii) : (nat_of_ascii c / 16 < 16)%nat.
Proof.
  pose proof (nat_ascii_bounded c) as H.
  apply Nat.Div0.div_lt_upper_bound. simpl. exact H.
Qed.

Lemma low_nibble (c : ascii) : (nat_of_ascii c mod 16 < 16)%nat.
Proof. apply Nat.mod_upper_bound. discriminate. Qed.

Lemma encodeURI_cons (c : ascii) (rest : string) :
  encodeURI (String c rest)
  = if uri_unescaped c then String c (encodeURI rest)
    else String "%" (String (hex_digit (nat_of_ascii c / 16))
                       (String (hex_digit (nat_of_ascii c mod 16)) (encodeURI rest))).
Proof. reflexivity. Qed.

Lemma encodeURI_app (a b : string) :
  encodeURI (a ++ b) = (encodeURI a ++ encodeURI b)%string.
Proof.
  induction a as [|c a IH]; [reflexivity|].
  change (String c a ++ b)%string with (String c (a ++ b)).
  rewrite !encodeURI_cons, IH. destruct (uri_unescaped c); reflexivity.
Qed.

Lemma percent_decode_escape (h l : ascii) (rest : string) :
  percent_decode (String "%" (String h (String l rest)))
  = String (ascii_of_nat (16 * hex_value h + hex_value l)) (percent_decode rest).
Proof. reflexivity. Qed.

Lemma percent_decode_encodeURI (s : string) : percent_decode (encodeURI s) = s.
Proof.
  induction s as [|c s IH]; [reflexivity|].
  rewrite encodeURI_cons. destruct (uri_unescaped c) eqn:Hc.
  - simpl percent_decode.
    destruct (Ascii.eqb_spec c "%") as [->|_]; [discriminate Hc|].
    rewrite IH. reflexivity.
  - rewrite percent_decode_escape, IH.
    rewrite !hex_value_digit by (apply high_nibble || apply low_nibble).
    rewrite <- Nat.div_mod_eq, ascii_nat_embedding. reflexivity.
Qed.

Lemma encodeURI_chars (s : string) :
  forallb uri_char (list_ascii_of_string (encodeURI s)) = true.
Proof.
  induction s as [|c s IH]; [reflexivity|].
  rewrite encodeURI_cons.
  destruct (uri_unescaped c) eqn:Hc; cbn [list_ascii_of_string forallb].
  - unfold uri_char at 1. rewrite Hc. exact IH.
  - change (uri_char "%") with true.
    unfold uri_char at 1 2.
    rewrite (hex_digit_unescaped _ (high_nibble c)), (hex_digit_unescaped _ (low_nibble c)).
    exact IH.
Qed.

Lemma occurs_forallb (c : ascii) (f : ascii -> bool) (s : string) :
  forallb f (list_ascii_of_string s) = true -> f c = false -> occurs c s = false.
Proof.
  induction s as [|x s IH]; simpl; intros H Hc; [reflexivity|].
  apply andb_prop in H. destruct H as [Hx Hs].
  rewrite (IH Hs Hc), orb_false_r.
  destruct (Ascii.eqb_spec x c) as [->|_]; [congruence|reflexivity].
Qed.

Lemma href_downloadLogs (log : list LogEntry.t) :
  href (downloadLogs log) = encodeURI (csvContent log).
Proof. reflexivity. Qed.

(** ** X6 *)

(** X6. The address that [downloadLogs] puts on the anchor is made of
    URI characters only: whatever the log holds, every character of the
    [href] is a letter, a digit, one of [;/?:@&=+$,-_.!~*'()#] or a percent
    sign; in particular it holds no line feed, no space and no double
    quote. *)
Theorem download_href_chars (log : list LogEntry.t) :
  forallb uri_char (list_ascii_of_string (href (downloadLogs log))) = true
  /\ occurs LF_char (href (downloadLogs log)) = false
  /\ occurs " " (href (downloadLogs log)) = false
  /\ occurs (ascii_of_nat 34) (href (downloadLogs log)) = false.
Proof.
  rewrite href_downloadLogs.
  pose proof (encodeURI_chars (csvContent log)) as H.
  split; [exact H|].
  repeat split; apply (occurs_forallb _ uri_char); try exact H; reflexivity.
Qed.

(** ** X7 *)

(** X7. The escaping loses nothing: percent-decoding the [href] of the
    anchor gives back the content that [downloadLogs] built, character for
    character, so two logs with the same [href] have the same content. *)
Theorem download_href_decodes (log log' : list LogEntry.t) :
  percent_decode (href (downloadLogs log)) = csvContent log
  /\ (href (downloadLogs log) = href (downloadLogs log') <-> csvContent log = csvContent log').
Proof.
  rewrite !href_downloadLogs.
  split; [apply percent_decode_encodeURI|]. split.
  - intros H.
    apply (f_equal percent_decode) in H. rewrite !percent_decode_encodeURI in H. exact H.
  - intros H. rewrite H. reflexivity.
Qed.

(** ** Rows and lines *)

Lemma end_inj (c : ascii) (a : string) :
  forall b t1 t2,
    occurs c a = false -> occurs c b = false ->
    match t1 with EmptyString => True | String x _ => x = c end ->
    match t2 with EmptyString => True | String x _ => x = c end ->
    (a ++ t1 = b ++ t2)%string -> a = b /\ t1 = t2.
Proof.
  induction a as [|x a IH]; intros [|y b] t1 t2 Ha Hb H1 H2 H; simpl in *.
  - split; [reflexivity|exact H].
  - subst t1. apply orb_false_elim in Hb. destruct Hb as [Hy _].
    rewrite H1, Ascii.eqb_refl in Hy. discriminate Hy.
  - subst t2. apply orb_false_elim in Ha. destruct Ha as [Hx _].
    rewrite H2, Ascii.eqb_refl in Hx. discriminate Hx.
  - injection H as -> H.
    apply orb_false_elim in Ha. destruct Ha as [_ Ha].
    apply orb_false_elim in Hb. destruct Hb as [_ Hb].
    destruct (IH b t1 t2 Ha Hb H1 H2 H) as [-> ->]. split; reflexivity.
Qed.

Lemma delim_inj (c : ascii) (a b x y : string) :
  occurs c a = false -> occurs c b = false ->
  (a ++ String c x = b ++ String c y)%string -> a = b /\ x = y.
Proof.
  intros Ha Hb H.
  destruct (end_inj c a b (String c x) (String c y) Ha Hb eq_refl eq_refl H) as [-> E].
  injection E as ->. split; reflexivity.
Qed.

Lemma row_fields (entry : LogEntry.t) :
  row entry
  = (LogEntry.time entry
     ++ String "," (LogEntry.emotion entry ++ String "," (LogEntry.speech entry)))%string.
Proof. reflexivity. Qed.

Lemma clean_fields (entry : LogEntry.t) :
  clean entry = true ->
  occurs "," (LogEntry.time entry) = false
  /\ occurs LF_char (LogEntry.time entry) = false
  /\ occurs "," (LogEntry.emotion entry) = false
  /\ occurs LF_char (LogEntry.emotion entry) = false
  /\ occurs LF_char (LogEntry.speech entry) = false.
Proof.
  unfold clean. intros H.
  repeat (apply andb_prop in H; destruct H as [H ?]).
  repeat split; apply negb_true_iff; assumption.
Qed.

Lemma row_inj (e1 e2 : LogEntry.t) :
  clean e1 = true -> clean e2 = true -> row e1 = row e2 -> e1 = e2.
Proof.
  intros C1 C2 H.
  destruct (clean_fields e1 C1) as (T1 & _ & E1 & _).
  destruct (clean_fields e2 C2) as (T2 & _ & E2 & _).
  rewrite !row_fields in H.
  destruct (delim_inj "," _ _ _ _ T1 T2 H) as [Ht H'].
  destruct (delim_inj "," _ _ _ _ E1 E2 H') as [He Hs].
  destruct e1, e2. simpl in *. congruence.
Qed.

Lemma row_no_line_feed (entry : LogEntry.t) :
  clean entry = true -> occurs LF_char (row entry) = false.
Proof.
  intros C. destruct (clean_fields entry C) as (_ & T & _ & E & S).
  rewrite row_fields, occurs_app. simpl occurs. rewrite occurs_app. simpl occurs.
  rewrite T, E, S. reflexivity.
Qed.

Lemma csv_lines_cons (entry : LogEntry.t) (rest : list LogEntry.t) :
  csv_lines (entry :: rest)
  = (row entry
     ++ match rest with
        | [] => EmptyString
        | _ :: _ => String LF_char (csv_lines rest)
        end)%string.
Proof.
  destruct rest as [|next rest]; [|reflexivity].
  rewrite str_app_nil_r. reflexivity.
Qed.

Lemma csv_lines_inj (log1 : list LogEntry.t) :
  forall log2,
    forallb clean log1 = true -> forallb clean log2 = true ->
    csv_lines log1 = csv_lines log2 -> log1 = log2.
Proof.
  induction log1 as [|e1 r1 IH]; intros [|e2 r2] C1 C2 H.
  - reflexivity.
  - exfalso. rewrite csv_lines_cons, row_fields, str_app_assoc in H.
    destruct (LogEntry.time e2); discriminate H.
  - exfalso. rewrite csv_lines_cons, row_fields, str_app_assoc in H.
    destruct (LogEntry.time e1); discriminate H.
  - simpl in C1, C2.
    apply andb_prop in C1. destruct C1 as [Ce1 Cr1].
    apply andb_prop in C2. destruct C2 as [Ce2 Cr2].
    rewrite !csv_lines_cons in H.
    apply end_inj with (c := LF_char) in H;
      [|apply row_no_line_feed; assumption|apply row_no_line_feed; assumption
       |destruct r1; [exact I|reflexivity]|destruct r2; [exact I|reflexivity]].
    destruct H as [Hrow Htail].
    rewrite (row_inj e1 e2 Ce1 Ce2 Hrow). f_equal.
    destruct r1 as [|n1 r1'], r2 as [|n2 r2']; try discriminate Htail; [reflexivity|].
    injection Htail as Htail. apply IH; assumption.
Qed.

(** ** X8 *)

(** X8. The export loses nothing when the fields are plain: two logs whose
    times and emotions hold no comma and no line feed and whose speeches hold
    no line feed get the same anchor from [downloadLogs] only when they are
    the same log. *)
Theorem download_determines_plain_log (log1 log2 : list LogEntry.t) :
  forallb clean log1 = true -> forallb clean log2 = true ->
  downloadLogs log1 = downloadLogs log2 -> log1 = log2.
Proof.
  intros C1 C2 H.
  assert (Hc : csvContent log1 = csvContent log2).
  { apply (f_equal href) in H. rewrite !href_downloadLogs in H.
    apply (f_equal percent_decode) in H. rewrite !percent_decode_encodeURI in H. exact H. }
  unfold csvContent in Hc. apply str_app_inv_head in Hc.
  rewrite !join_rows in Hc.
  apply csv_lines_inj; assumption.
Qed.

Lemma download_determines_plain_log_witness :
  forallb clean two_entries = true
  /\ downloadLogs two_entries = downloadLogs two_entries
  /\ two_entries = two_entries.
Proof.
  assert (C : forallb clean two_entries = true) by reflexivity.
  assert (H : downloadLogs two_entries = downloadLogs two_entries) by reflexivity.
  split; [exact C|]. split; [exact H|].
  exact (download_determines_plain_log two_entries two_entries C C H).
Defined.

Lemma download_of_rows (log1 log2 : list LogEntry.t) :
  String.concat LF (map row log1) = String.concat LF (map row log2) ->
  downloadLogs log1 = downloadLogs log2.
Proof. intros H. unfold downloadLogs, csvContent. rewrite H. reflexivity. Qed.

(** ** X9 *)

(** X9. Nothing is escaped, so a separator inside a field is read as a
    separator: an entry whose speech holds a line feed followed by a row
    exports like two entries, and a comma at the end of the emotion exports
    like a comma at the start of the speech, although the logs differ. *)
Theorem download_confuses_separators (time emotion speech : string) (next : LogEntry.t) :
  downloadLogs [LogEntry.mk time emotion (speech ++ LF ++ row next)]
  = downloadLogs [LogEntry.mk time emotion speech; next]
  /\ [LogEntry.mk time emotion (speech ++ LF ++ row next)]
     <> [LogEntry.mk time emotion speech; next]
  /\ downloadLogs [LogEntry.mk time (emotion ++ ",") speech]
     = downloadLogs [LogEntry.mk time emotion ("," ++ speech)]
  /\ [LogEntry.mk time (emotion ++ ",") speech]
     <> [LogEntry.mk time emotion ("," ++ speech)].
Proof.
  split; [|split; [discriminate|split]].
  - apply download_of_rows.
    change (String.concat LF (map row [LogEntry.mk time emotion speech; next]))
      with (row (LogEntry.mk time emotion speech) ++ LF ++ row next)%string.
    change (String.concat LF (map row [LogEntry.mk time emotion (speech ++ LF ++ row next)]))
      with (row (LogEntry.mk time emotion (speech ++ LF ++ row next))).
    rewrite !row_fields. cbn [LogEntry.time LogEntry.emotion LogEntry.speech].
    rewrite ?str_app_assoc. cbn [append]. rewrite ?str_app_assoc. reflexivity.
  - apply download_of_rows.
    change (String.concat LF (map row [LogEntry.mk time (emotion ++ ",") speech]))
      with (row (LogEntry.mk time (emotion ++ ",") speech)).
    change (String.concat LF (map row [LogEntry.mk time emotion ("," ++ speech)]))
      with (row (LogEntry.mk time emotion ("," ++ speech))).
    rewrite !row_fields. cbn [LogEntry.time LogEntry.emotion LogEntry.speech].
    rewrite ?str_app_assoc. cbn [append]. rewrite ?str_app_assoc. reflexivity.
  - intros H. injection H as H. clear - H.
    induction emotion as [|c e IH]; [discriminate H|].
    injection H as H. apply IH. exact H.
Qed.

(** * Properties of the component around the pipeline *)

Lemma handle_all_cons (c : Component) (sig : Signal) (rest : list Signal) :
  handle_all c (sig :: rest)
  = (fst (handle_all (fst (handle c sig)) rest),
     snd (handle c sig) ++ snd (handle_all (fst (handle c sig)) rest)).
Proof.
  cbn [handle_all]. destruct (handle c sig) as [c1 e1]. cbn [fst snd].
  destruct (handle_all c1 rest) as [c2 e2]. reflexivity.
Qed.

(** ** X10 *)

Lemma handle_deaf (c : Component) (sig : Signal) :
  deaf c -> sig <> ModelsResolved true ->
  deaf (fst (handle c sig))
  /\ ~ In RecognitionStart (snd (handle c sig))
  /\ ~ In RecognitionStop (snd (handle c sig)).
Proof.
  intros (Href & Hlis & Hlog) Hsig.
  destruct c as [loaded err lis ref st]. simpl in Href, Hlis, Hlog. subst ref lis.
  assert (Hno : forall e : Effect, ~ In e []) by (intros e []).
  destruct sig as [[|]| |[|]| |[|]|refs detections now|transcript| | | |];
    try congruence; unfold deaf; simpl;
    try (repeat split; try assumption; try reflexivity; intros Hin; simpl in Hin;
         intuition discriminate).
  destruct st as [buffer log current]. simpl in Hlog.
  change (if refs then state_of (handleVideoPlay_tick (mkState buffer log current) detections now)
          else mkState buffer log current)
    with (step (mkState buffer log current) (Tick refs detections now)).
  destruct (tick_shape buffer refs detections now)
    as [(b' & Hstep)|(entry & Hspeech & _ & Hstep)]; rewrite Hstep; simpl.
  - repeat split; try assumption; intros [].
  - repeat split; try (intros []).
    apply Forall_app. split; [exact Hlog|]. constructor; [exact Hspeech|constructor].
Qed.

(** X10. In a browser without speech recognition the recognizer is never
    created, started or stopped, the listening flag stays off and every entry
    of the log keeps an empty speech, whatever signals arrive after the mount,
    play events, ticks and stray recognition events included. *)
Theorem without_speech_support (sigs : list Signal) :
  Forall (fun sig => sig <> ModelsResolved true) sigs ->
  recognitionRef (fst (handle_all mounted sigs)) = None
  /\ isListening (fst (handle_all mounted sigs)) = false
  /\ ~ In RecognitionStart (snd (handle_all mounted sigs))
  /\ ~ In RecognitionStop (snd (handle_all mounted sigs))
  /\ Forall (fun entry => LogEntry.speech entry = EmptyString)
       (emotionsLog (cells (fst (handle_all mounted sigs)))).
Proof.
  assert (G : forall sigs c,
             deaf c -> Forall (fun sig => sig <> ModelsResolved true) sigs ->
             deaf (fst (handle_all c sigs))
             /\ ~ In RecognitionStart (snd (handle_all c sigs))
             /\ ~ In RecognitionStop (snd (handle_all c sigs))).
  { clear sigs. induction sigs as [|sig sigs IH]; intros c Hc Hall.
    - simpl. repeat split; try apply Hc; intros [].
    - inversion Hall as [|? ? Hsig Hrest]; subst.
      rewrite handle_all_cons. simpl fst. simpl snd.
      destruct (handle_deaf c sig Hc Hsig) as (Hc1 & Hs1 & Hp1).
      destruct (IH _ Hc1 Hrest) as (Hc2 & Hs2 & Hp2).
      split; [exact Hc2|].
      split; intros Hin; apply in_app_or in Hin; tauto. }
  intros Hall.
  destruct (G sigs mounted) as ((H1 & H2 & H3) & H4 & H5); [|exact Hall|tauto].
  unfold deaf, mounted. simpl. repeat split. constructor.
Qed.

Lemma without_speech_support_witness :
  Forall (fun sig => sig <> ModelsResolved true) deaf_session
  /\ recognitionRef (fst (handle_all mounted deaf_session)) = None
  /\ isListening (fst (handle_all mounted deaf_session)) = false
  /\ ~ In RecognitionStart (snd (handle_all mounted deaf_session))
  /\ ~ In RecognitionStop (snd (handle_all mounted deaf_session))
  /\ Forall (fun entry => LogEntry.speech entry = EmptyString)
       (emotionsLog (cells (fst (handle_all mounted deaf_session)))).
Proof.
  assert (H : Forall (fun sig => sig <> ModelsResolved true) deaf_session)
    by (unfold deaf_session; repeat constructor; discriminate).
  split; [exact H|]. exact (without_speech_support deaf_session H).
Defined.

(** ** X11 *)

Lemma handle_keeps_recognizer (c : Component) (sig : Signal) :
  recognitionRef c <> None -> recognitionRef (fst (handle c sig)) <> None.
Proof.
  intros H. destruct c as [loaded err lis [r|] st]; [|simpl in H; congruence].
  destruct sig as [[|]| |[|]| |[|]|refs detections now|transcript| | | |]; simpl;
    try discriminate.
  destruct lis; discriminate.
Qed.

(** X11. No handler ever clears the recognizer ref, the cleanup included:
    once a recognizer exists, the restart timer that [onend] sets always finds
    it and starts it again.  After the cleanup has stopped the recognizer, its
    end event and the timer start it once more. *)
Theorem restart_survives_cleanup (c : Component) (sigs : list Signal) :
  recognitionRef c <> None ->
  recognitionRef (fst (handle_all c sigs)) <> None
  /\ snd (handle (fst (handle_all c sigs)) Restart) = [RecognitionStart]
  /\ isListening (fst (handle (fst (handle_all c sigs)) Restart)) = true
  /\ snd (handle_all (fst (handle_all c sigs)) [Unmount; Ended; Restart])
     = [RecognitionStop; SetTimeout 5000; RecognitionStart].
Proof.
  intros H.
  assert (G : recognitionRef (fst (handle_all c sigs)) <> None).
  { revert c H. induction sigs as [|sig sigs IH]; intros c H; [exact H|].
    rewrite handle_all_cons. simpl fst. apply IH, handle_keeps_recognizer, H. }
  split; [exact G|].
  destruct (fst (handle_all c sigs)) as [loaded err lis [r|] st];
    [|simpl in G; congruence].
  repeat split.
Qed.

Lemma restart_survives_cleanup_witness :
  recognitionRef (fst (handle mounted (ModelsResolved true))) <> None
  /\ snd (handle_all (fst (handle mounted (ModelsResolved true)))
            [Play true; Unmount; Ended; Restart])
     = [MatchDimensions; RecognitionStart; SetInterval 1000;
        RecognitionStop; SetTimeout 5000; RecognitionStart]
  /\ recognitionRef
       (fst (handle_all (fst (handle mounted (ModelsResolved true))) [Play true])) <> None.
Proof.
  assert (H : recognitionRef (fst (handle mounted (ModelsResolved true))) <> None)
    by discriminate.
  split; [exact H|]. split; [reflexivity|].
  exact (proj1 (restart_survives_cleanup
                  (fst (handle mounted (ModelsResolved true))) [Play true] H)).
Defined.

(** ** X12 *)

Lemma handle_cells (c : Component) (sig : Signal) :
  (exists ev,
      cells (fst (handle c sig)) = step (cells c) ev
      /\ produces_sample ev
         = match sig with
           | Interval refs detections now => produces_sample (Tick refs detections now)
           | _ => false
           end)
  \/ (cells (fst (handle c sig)) = cells c
      /\ match sig with Interval _ _ _ => False | _ => True end).
Proof.
  destruct c as [loaded err lis ref st].
  destruct sig as [[|]| |[|]| |[|]|refs detections now|transcript| | | |]; simpl;
    try (right; split; [reflexivity|exact I]).
  - destruct ref; [destruct lis|]; right; split; try reflexivity; exact I.
  - left. exists (Tick refs detections now). split; reflexivity.
  - destruct ref; [left; exists (SpeechResult transcript); split; reflexivity|].
    right; split; [reflexivity|exact I].
  - destruct ref; right; split; try reflexivity; exact I.
  - destruct ref; right; split; try reflexivity; exact I.
  - destruct ref; right; split; try reflexivity; exact I.
Qed.

Lemma signal_samples_cons (sig : Signal) (sigs : list Signal) :
  signal_samples (sig :: sigs)
  = ((match sig with
      | Interval refs detections now =>
          if produces_sample (Tick refs detections now) then 1 else 0
      | _ => 0
      end) + signal_samples sigs)%nat.
Proof.
  unfold signal_samples. cbn [filter].
  destruct sig; try reflexivity.
  destruct (produces_sample (Tick refs detections now)); reflexivity.
Qed.

Lemma handle_all_accounting (sigs : list Signal) :
  forall c, (List.length (emotionBuffer (cells c)) < 5)%nat ->
    (List.length (emotionBuffer (cells (fst (handle_all c sigs)))) < 5)%nat
    /\ (5 * List.length (emotionsLog (cells (fst (handle_all c sigs))))
        + List.length (emotionBuffer (cells (fst (handle_all c sigs))))
        = 5 * List.length (emotionsLog (cells c)) + List.length (emotionBuffer (cells c))
          + signal_samples sigs)%nat.
Proof.
  induction sigs as [|sig sigs IH]; intros c Hlt.
  - simpl. unfold signal_samples. simpl. lia.
  - rewrite handle_all_cons, signal_samples_cons. simpl fst.
    destruct (handle_cells c sig) as [(ev & Hcells & Hp)|(Hcells & Hsig)].
    + destruct (step_cases (cells c) ev Hlt)
        as [(Hp' & H4 & Hb & entry & Hl)|[(Hp' & H4 & Hb & Hl)|(Hp' & Hb & Hl)]];
        rewrite Hp' in Hp; rewrite <- Hcells in Hb, Hl.
      * destruct (IH (fst (handle c sig))) as [I1 I2]; [rewrite Hb; simpl; lia|].
        split; [exact I1|]. rewrite I2, Hb, Hl, length_app.
        destruct sig; try discriminate Hp. rewrite <- Hp. simpl. lia.
      * destruct (IH (fst (handle c sig))) as [I1 I2]; [lia|].
        split; [exact I1|]. rewrite I2, Hb, Hl.
        destruct sig; try discriminate Hp. rewrite <- Hp. lia.
      * destruct (IH (fst (handle c sig))) as [I1 I2]; [rewrite Hb; exact Hlt|].
        split; [exact I1|]. rewrite I2, Hb, Hl.
        destruct sig; try lia. rewrite <- Hp. lia.
    + destruct (IH (fst (handle c sig))) as [I1 I2]; [rewrite Hcells; exact Hlt|].
      split; [exact I1|]. rewrite I2, Hcells.
      destruct sig; lia || contradiction.
Qed.

(** X12. The download button appears with the fifth sample: after any
    signals from the mount, the button is rendered exactly when the interval
    ticks have produced at least 5 samples, and then the log holds one entry
    for every five of them. *)
Theorem download_button_after_five_samples (sigs : list Signal) :
  download_button (render (fst (handle_all mounted sigs)))
  = (5 <=? signal_samples sigs)%nat
  /\ List.length (emotionsLog (cells (fst (handle_all mounted sigs))))
     = (signal_samples sigs / 5)%nat.
Proof.
  destruct (handle_all_accounting sigs mounted) as [Hlt Hacc]; [simpl; lia|].
  simpl in Hacc.
  set (c := fst (handle_all mounted sigs)) in *.
  assert (Hlen : List.length (emotionsLog (cells c)) = (signal_samples sigs / 5)%nat).
  { apply Nat.div_unique with (List.length (emotionBuffer (cells c))); lia. }
  split; [|exact Hlen].
  unfold render, Array.length. simpl download_button.
  destruct (Nat.leb_spec 5 (signal_samples sigs)) as [H5|H5].
  - apply Z.ltb_lt. destruct (emotionsLog (cells c)); simpl in *; lia.
  - apply Z.ltb_ge. destruct (emotionsLog (cells c)); simpl in *; lia.
Qed.
